(** * sphinxit.core: connection pool, driver registry and query executor

    A shallow embedding of [sphinxit/core/sql_engine.py] and
    [sphinxit/core/connector.py], followed by the properties of the
    specification that were checked against it.

    Conventions of the embedding.
    - Python dictionaries are [gmap]s; the [deque] of idle connections is a
      list whose head is the left end.
    - A function that may raise returns an [outcome]; the mutable objects
      (the pool, the thread-local slot, the cursor, the server) are threaded
      explicitly.
    - The underlying wire-protocol library is an opaque collaborator: it is
      the parameter [driver], a function from the statements sent so far and
      the next statement to either an exception or a row set. *)

From Stdlib Require Import ZArith String List Lia.
From stdpp Require Import gmap strings list sorting.

Local Open Scope string_scope.
Local Open Scope Z_scope.

(** ** Python values and exceptions *)

(** Values found in result rows and in exception arguments. *)
Inductive pyval :=
| PNone
| PInt (z : Z)
| PStr (s : string).

#[global] Instance pyval_eq_dec : EqDecision pyval.
Proof. solve_decision. Defined.

Definition pyval_to_sum (v : pyval) : unit + (Z + string) :=
  match v with
  | PNone => inl tt
  | PInt z => inr (inl z)
  | PStr s => inr (inr s)
  end.

Definition pyval_of_sum (x : unit + (Z + string)) : pyval :=
  match x with
  | inl _ => PNone
  | inr (inl z) => PInt z
  | inr (inr s) => PStr s
  end.

#[global] Instance pyval_countable : Countable pyval.
Proof.
  apply (inj_countable' pyval_to_sum pyval_of_sum).
  intros []; reflexivity.
Defined.

(** Values of connection options: these also hold booleans. *)
Inductive optval :=
| ONone
| OBool (b : bool)
| OInt (z : Z)
| OStr (s : string).

(** Exceptions.  [PyExc name args] is an exception of the underlying
    library or of the Python runtime, with the name of its class and its
    [args]; the two others are the exceptions of [sphinxit.core.exceptions],
    [SphinxQLDriverException] holding the single argument it was built
    from: an exception ([SphinxQLDriverException(e)]) or a value
    ([SphinxQLDriverException(msg)]). *)
Inductive exc :=
| PyExc (type_name : string) (args : list pyval)
| SphinxQLDriverException (arg : exc_arg)
| ImproperlyConfigured (msg : string)
with exc_arg :=
| OfExc (e : exc)
| OfVal (v : pyval).

(** [type(e).__name__] *)
Definition exc_type_name (e : exc) : string :=
  match e with
  | PyExc n _ => n
  | SphinxQLDriverException _ => "SphinxQLDriverException"
  | ImproperlyConfigured _ => "ImproperlyConfigured"
  end.

Inductive outcome (A : Type) :=
| Return (a : A)
| Raise (e : exc).
Arguments Return {A} a.
Arguments Raise {A} e.

(** ** sql_engine.py *)

Module SqlEngine.

(** The concrete subclasses of [AbstractSqlEngine]. *)
Inductive engine_class :=
| OurSqlEngine
| PyMySqlEngine
| MySqlDbEngine
| CyMySqlEngine
| UMySqlEngine.

#[global] Instance engine_class_eq_dec : EqDecision engine_class.
Proof. solve_decision. Defined.

(** *** The driver registry *)

(** [register_engine(name)(cls)]: [_driver_registry[name] = cls] *)
Definition register_engine (name : string) (cls : engine_class)
    (reg : gmap string engine_class) : gmap string engine_class :=
  <[name := cls]> reg.

(** [_driver_registry.get(name)] *)
Definition get_engine_class (reg : gmap string engine_class)
    (name : string) : option engine_class :=
  reg !! name.

(** Order of [str] values: lexicographic on the characters. *)
Definition str_le (s1 s2 : string) : Prop := String.leb s1 s2 = true.

#[global] Instance str_le_dec s1 s2 : Decision (str_le s1 s2).
Proof. unfold str_le. apply _. Defined.

(** [sorted(_driver_registry.keys())] *)
Definition list_engine_names (reg : gmap string engine_class) : list string :=
  merge_sort str_le (map_to_list reg).*1.

(** The registry after the module has been imported: the class
    decorators run in textual order, and the two decorators of
    [PyMySqlEngine] bottom-up ('mysqldb' first, then 'pymysql'). *)
Definition _driver_registry : gmap string engine_class :=
  register_engine "umysqldb" UMySqlEngine
    (register_engine "cymysql" CyMySqlEngine
      (register_engine "mysqldb1" MySqlDbEngine
        (register_engine "pymysql" PyMySqlEngine
          (register_engine "mysqldb" PyMySqlEngine
            (register_engine "oursql" OurSqlEngine ∅))))).

(** A sequence of registrations applied in order to a registry. *)
Definition register_all (rs : list (string * engine_class))
    (reg : gmap string engine_class) : gmap string engine_class :=
  fold_left (fun r nc => register_engine nc.1 nc.2 r) rs reg.

(** *** Engine instances *)

Record engine := Engine {
  eng_class : engine_class;
  options : gmap string optval
}.

(** [options.setdefault(k, v)] *)
Definition setdefault (k : string) (v : optval)
    (o : gmap string optval) : gmap string optval :=
  match o !! k with
  | Some _ => o
  | None => <[k := v]> o
  end.

(** The body of [AbstractSqlEngine.__init__] on the options dictionary. *)
Definition AbstractSqlEngine_init (o : gmap string optval) : gmap string optval :=
  setdefault "cursorclass" (OStr "Cursor")
    (setdefault "sql_mode" ONone
      (setdefault "charset" (OStr "utf8")
        (setdefault "use_unicode" (OBool true)
          (setdefault "read_default_file" ONone
            (setdefault "connect_timeout" (OInt 10)
              (setdefault "unix_socket" ONone
                (setdefault "port" (OInt 3306)
                  (setdefault "db" ONone
                    (setdefault "password" ONone
                      (setdefault "user" ONone
                        (setdefault "host" (OStr "localhost") o))))))))))).

(** The modules each constructor imports, in order. *)
Definition imports (cls : engine_class) : list string :=
  match cls with
  | OurSqlEngine => ["oursql"]
  | PyMySqlEngine => ["pymysql"; "pymysql.cursors"]
  | MySqlDbEngine => ["MySQLdb"; "MySQLdb.cursors"]
  | CyMySqlEngine => ["cymysql"; "cymysql.cursors"]
  | UMySqlEngine => ["umysqldb"; "umysqldb.cursors"]
  end.

(** [import m] for each module of the list; [installed] tells which
    modules the interpreter can import. *)
Fixpoint import_all (installed : string → bool) (ms : list string) : outcome unit :=
  match ms with
  | [] => Return tt
  | m :: ms' =>
      if installed m then import_all installed ms'
      else Raise (PyExc "ImportError" [PStr ("No module named " ++ m)])
  end.

(** [cls(options)].  The options dictionary is shared with the caller and
    is filled with the defaults before the import is attempted, so the
    updated dictionary is returned in both cases. *)
Definition engine_new (installed : string → bool) (cls : engine_class)
    (o : gmap string optval) : outcome engine * gmap string optval :=
  let o' := AbstractSqlEngine_init o in
  match import_all installed (imports cls) with
  | Return _ => (Return (Engine cls o'), o')
  | Raise e => (Raise e, o')
  end.

(** *** Error translation *)

(** [AbstractSqlEngine.raise_for_exception] *)
Definition AbstractSqlEngine_raise_for_exception (e : exc) : outcome unit :=
  Raise (SphinxQLDriverException (OfExc e)).

(** [OurSqlEngine.raise_for_exception]: the test on the class name, then
    [errno, msg, extra = e], which unpacks the arguments of the exception
    and raises [ValueError] unless there are exactly three. *)
Definition OurSqlEngine_raise_for_exception (e : exc) : outcome unit :=
  if String.eqb (exc_type_name e) "ProgrammingError" then
    match e with
    | PyExc _ [errno; msg; extra] =>
        match errno with
        | PNone => Return tt
        | _ => Raise (SphinxQLDriverException (OfVal msg))
        end
    | _ => Raise (PyExc "ValueError" [PStr "wrong number of values to unpack"])
    end
  else Return tt.

(** Method resolution: only [OurSqlEngine] overrides the method. *)
Definition raise_for_exception (cls : engine_class) (e : exc) : outcome unit :=
  match cls with
  | OurSqlEngine => OurSqlEngine_raise_for_exception e
  | _ => AbstractSqlEngine_raise_for_exception e
  end.

(** The [plain_query] keyword that [execute] passes to the cursor:
    only [OurSqlEngine.execute] sets it. *)
Definition plain_query (cls : engine_class) : bool :=
  match cls with
  | OurSqlEngine => true
  | _ => false
  end.

End SqlEngine.

(** ** connector.py *)

Module Connector.
Import SqlEngine.

(** The resolved configuration object.  [POOL_SIZE], [WITH_META] and
    [WITH_STATUS] are read with [getattr(config, name, default)] and may
    be absent. *)
Record Config := {
  SEARCHD_CONNECTION : gmap string optval;
  SQL_ENGINE : string;
  POOL_SIZE : option Z;
  WITH_META : option bool;
  WITH_STATUS : option bool
}.

(** *** The underlying library *)

(** A statement handed to [cursor.execute]: the connection of the cursor
    (connections are numbered in the order they were opened), the text
    and the [plain_query] keyword. *)
Record stmt := Stmt {
  st_conn : nat;
  st_text : string;
  st_plain : bool
}.

(** A row of a [DictCursor]: column name to value. *)
Abbreviation row := (gmap string pyval).

(** The library and the daemon behind it: the answer to a statement
    given the statements sent before it, either an exception raised by
    [cursor.execute] or the rows the cursor then holds. *)
Definition driver := list stmt → stmt → outcome (list row).

Record cursor := Cursor {
  cur_conn : nat;
  cur_rows : list row
}.

(** *** Mutable state *)

(** The private attributes of the connector ([connections_pool],
    [local]) and what the library has been asked to do ([opened]: number
    of [engine.get_connection()] calls; [sent]: statements executed;
    [cursors_closed]; [connections_closed]).  [local] maps a thread to the
    [conn] attribute of its [threading.local()] view: absent when the
    attribute is not set, [Some None] when it is [None]. *)
Record state := State {
  connections_pool : list nat;
  local : gmap nat (option nat);
  opened : nat;
  sent : list stmt;
  cursors_closed : nat;
  connections_closed : list nat
}.

Definition set_pool (p : list nat) (s : state) : state :=
  State p (local s) (opened s) (sent s) (cursors_closed s) (connections_closed s).
Definition set_local (l : gmap nat (option nat)) (s : state) : state :=
  State (connections_pool s) l (opened s) (sent s) (cursors_closed s) (connections_closed s).
Definition set_opened (n : nat) (s : state) : state :=
  State (connections_pool s) (local s) n (sent s) (cursors_closed s) (connections_closed s).
Definition set_sent (l : list stmt) (s : state) : state :=
  State (connections_pool s) (local s) (opened s) l (cursors_closed s) (connections_closed s).
Definition set_cursors_closed (n : nat) (s : state) : state :=
  State (connections_pool s) (local s) (opened s) (sent s) n (connections_closed s).
Definition set_connections_closed (l : list nat) (s : state) : state :=
  State (connections_pool s) (local s) (opened s) (sent s) (cursors_closed s) l.

(** Computations that read and write the state and may raise. *)
Definition M (A : Type) : Type := state → outcome A * state.

Definition ret {A} (a : A) : M A := fun s => (Return a, s).
Definition throw {A} (e : exc) : M A := fun s => (Raise e, s).
Definition bind {A B} (m : M A) (k : A → M B) : M B :=
  fun s =>
    match m s with
    | (Return a, s') => k a s'
    | (Raise e, s') => (Raise e, s')
    end.
Definition lift {A} (o : outcome A) : M A := fun s => (o, s).

Notation "x <~ m ;; k" := (bind m (fun x => k))
  (at level 100, m at next level, right associativity).

(** *** The connector object *)

(** The attributes set by [__init__] that are never reassigned. *)
Record SphinxConnector := {
  config : Config;
  connection_options : gmap string optval;
  engine : option engine
}.

(** [__init__]: the options, the lookup of the engine class and its
    instantiation, where only [ImportError] is caught.  The two log
    messages are not modelled.  The pool, the thread-local object and the
    lock it creates are the [new_state]. *)
Definition SphinxConnector_init (installed : string → bool)
    (reg : gmap string engine_class) (cfg : Config) : outcome SphinxConnector :=
  let connection_options :=
    SEARCHD_CONNECTION cfg ∪
      <["port" := OInt 9306]> (<["host" := OStr "127.0.0.1"]> ∅) in
  match get_engine_class reg (SQL_ENGINE cfg) with
  | None => Return {| config := cfg; connection_options := connection_options;
                      engine := None |}
  | Some engine_class =>
      match engine_new installed engine_class connection_options with
      | (Return e, o) =>
          Return {| config := cfg; connection_options := o; engine := Some e |}
      | (Raise e, o) =>
          if String.eqb (exc_type_name e) "ImportError"
          then Return {| config := cfg; connection_options := o; engine := None |}
          else Raise e
      end
  end.

Definition new_state : state :=
  State [] ∅ 0 [] 0 [].

(** [getattr(self.config, 'POOL_SIZE', 10)] as the length of [range]. *)
Definition pool_size (cfg : Config) : nat :=
  Z.to_nat (default 10 (POOL_SIZE cfg)).

(** [engine.get_connection()]: the library opens a connection; it gets
    the next number.  Opening is taken to succeed. *)
Definition engine_get_connection : M nat :=
  fun s => (Return (opened s), set_opened (S (opened s)) s).

(** [for i in range(n): pool.append(engine.get_connection())] *)
Fixpoint fill_pool (n : nat) : M unit :=
  match n with
  | O => ret tt
  | S n' =>
      c <~ engine_get_connection ;;
      _ <~ (fun s => (Return tt, set_pool (connections_pool s ++ [c]) s)) ;;
      fill_pool n'
  end.

(** [_init_connection_pool] *)
Definition _init_connection_pool (self : SphinxConnector) : M unit :=
  match engine self with
  | None =>
      throw (ImproperlyConfigured
               "One of Sql libraries has to be installed to work with searchd")
  | Some _ =>
      fun s =>
        match connections_pool s with
        | [] => fill_pool (pool_size (config self)) s
        | _ :: _ => (Return tt, s)
        end
  end.

(** [deque.pop()]: removes and returns the rightmost element. *)
Definition deque_pop (d : list nat) : option (list nat * nat) :=
  match last d with
  | Some c => Some (removelast d, c)
  | None => None
  end.

(** [get_connection], up to the [yield]: one critical section, run by
    thread [t].  The value returned is the one yielded. *)
Definition get_connection_enter (self : SphinxConnector) (t : nat) : M nat :=
  _ <~ _init_connection_pool self ;;
  fun s =>
    match deque_pop (connections_pool s) with
    | None => (Raise (PyExc "IndexError" [PStr "pop from an empty deque"]), s)
    | Some (rest, local_connection) =>
        (Return local_connection,
         set_local (<[t := Some local_connection]> (local s)) (set_pool rest s))
    end.

(** [get_connection], after the [yield]: the second critical section. *)
Definition get_connection_exit (t : nat) (local_connection : nat) : M unit :=
  fun s =>
    (Return tt,
     set_pool (local_connection :: connections_pool s)
       (set_local (<[t := None]> (local s)) s)).

(** [with self.get_connection() as connection: body].  The generator has
    no handler around its [yield]: when the body raises, the exception
    is thrown into the generator at the [yield] and leaves it at once, so
    the statements after the [yield] do not run. *)
Definition with_get_connection {A} (self : SphinxConnector) (t : nat)
    (body : nat → M A) : M A :=
  fun s =>
    match get_connection_enter self t s with
    | (Raise e, s1) => (Raise e, s1)
    | (Return connection, s1) =>
        match body connection s1 with
        | (Return a, s2) =>
            let '(_, s3) := get_connection_exit t connection s2 in
            (Return a, s3)
        | (Raise e, s2) => (Raise e, s2)
        end
    end.

(** [close_connections], run by thread [t]; an error of
    [connection.close()] is swallowed, so closing is recorded only. *)
Definition close_connections (t : nat) : M unit :=
  fun s =>
    (Return tt,
     set_pool []
       (set_connections_closed (connections_closed s ++ connections_pool s)
         (set_local (delete t (local s)) s))).

(** *** Concurrent use of the pool *)

(** The lock makes each of the two critical sections of [get_connection]
    atomic, so a concurrent execution is a sequence of such sections.
    [Acquire t]: thread [t] enters a [with self.get_connection()] block;
    [Release t]: its innermost open block ends normally; [Abandon t]:
    its innermost open block is left by an exception. *)
Inductive event :=
| Acquire (t : nat)
| Release (t : nat)
| Abandon (t : nat).

(** The suspended generators: thread and [local_connection] of each,
    innermost first.  [take_frame t] removes the innermost one of [t]. *)
Fixpoint take_frame (t : nat) (frames : list (nat * nat))
    : option (nat * list (nat * nat)) :=
  match frames with
  | [] => None
  | (t', c) :: fs =>
      if decide (t' = t) then Some (c, fs)
      else
        match take_frame t fs with
        | Some (c', fs') => Some (c', (t', c) :: fs')
        | None => None
        end
  end.

(** One event; [None] when thread [t] has no open block to leave.  A
    failed acquisition opens no block. *)
Definition step (self : SphinxConnector) (ev : event)
    (sf : state * list (nat * nat)) : option (state * list (nat * nat)) :=
  let '(s, frames) := sf in
  match ev with
  | Acquire t =>
      match get_connection_enter self t s with
      | (Return c, s') => Some (s', (t, c) :: frames)
      | (Raise _, s') => Some (s', frames)
      end
  | Release t =>
      match take_frame t frames with
      | Some (c, frames') => Some ((get_connection_exit t c s).2, frames')
      | None => None
      end
  | Abandon t =>
      match take_frame t frames with
      | Some (_, frames') => Some (s, frames')
      | None => None
      end
  end.

Fixpoint run (self : SphinxConnector) (evs : list event)
    (sf : state * list (nat * nat)) : option (state * list (nat * nat)) :=
  match evs with
  | [] => Some sf
  | ev :: evs' =>
      match step self ev sf with
      | Some sf' => run self evs' sf'
      | None => None
      end
  end.

(** *** The query executor *)

(** The value stored under a key of a sub-result: the list of rows
    under ['items'], a flat dictionary under ['meta'] and ['status']. *)
Inductive subval :=
| Items (rows : list row)
| Flat (d : gmap pyval pyval).

(** What [execute] returns: a dictionary (the initial [{}] or the one
    built by [_execute_batch]) or the list of [cursor.fetchall()]. *)
Inductive result :=
| ResultDict (d : gmap string (gmap string subval))
| ResultRows (rows : list row).

(** The argument of [execute]: [isinstance(sxql_query, (tuple, list))]
    selects [Batch]. *)
Inductive query_item :=
| Single (q : string)
| Batch (b : list (string * string)).

(** [x[k]] on a row *)
Definition getitem (x : row) (k : string) : outcome pyval :=
  match x !! k with
  | Some v => Return v
  | None => Raise (PyExc "KeyError" [PStr k])
  end.

(** [[(x[k], x[v]) for x in raw_result]] *)
Fixpoint key_value_pairs (k v : string) (raw_result : list row)
    : outcome (list (pyval * pyval)) :=
  match raw_result with
  | [] => Return []
  | x :: rest =>
      match getitem x k with
      | Raise e => Raise e
      | Return a =>
          match getitem x v with
          | Raise e => Raise e
          | Return b =>
              match key_value_pairs k v rest with
              | Raise e => Raise e
              | Return l => Return ((a, b) :: l)
              end
          end
      end
  end.

(** [dict(pairs)]: a later pair replaces an earlier one with its key. *)
Definition dict (pairs : list (pyval * pyval)) : gmap pyval pyval :=
  fold_left (fun d kv => <[kv.1 := kv.2]> d) pairs ∅.

Definition normalize (k v : string) (raw_result : list row)
    : outcome (gmap pyval pyval) :=
  match key_value_pairs k v raw_result with
  | Return l => Return (dict l)
  | Raise e => Raise e
  end.

Definition _normalize_meta : list row → outcome (gmap pyval pyval) :=
  normalize "Variable_name" "Value".

Definition _normalize_status : list row → outcome (gmap pyval pyval) :=
  normalize "Counter" "Value".

(** [self.engine.<method>] when [self.engine] is [None] *)
Definition no_engine (method : string) : exc :=
  PyExc "AttributeError"
    [PStr ("'NoneType' object has no attribute '" ++ method ++ "'")].

Section Executor.
Variable drv : driver.
Variable self : SphinxConnector.

(** [cursor.execute(query)] with the [plain_query] keyword: the
    statement is sent, and the cursor holds the rows of the answer. *)
Definition cursor_execute (cur : cursor) (query : string) (plain : bool)
    : M cursor :=
  fun s =>
    let st := Stmt (cur_conn cur) query plain in
    let s' := set_sent (sent s ++ [st]) s in
    match drv (sent s) st with
    | Return rows => (Return (Cursor (cur_conn cur) rows), s')
    | Raise e => (Raise e, s')
    end.

(** Iterating over the cursor takes its rows. *)
Definition cursor_rows (cur : cursor) : list row * cursor :=
  (cur_rows cur, Cursor (cur_conn cur) []).

(** [cursor.close()] *)
Definition cursor_close (s : state) : state :=
  set_cursors_closed (S (cursors_closed s)) s.

(** [self.engine.execute(cursor, query)] *)
Definition engine_execute (cur : cursor) (query : string) : M cursor :=
  match engine self with
  | None => throw (no_engine "execute")
  | Some e => cursor_execute cur query (plain_query (eng_class e))
  end.

(** [self.engine.raise_for_exception(e)] *)
Definition engine_raise_for_exception (e : exc) : outcome unit :=
  match engine self with
  | None => Raise (no_engine "raise_for_exception")
  | Some en => raise_for_exception (eng_class en) e
  end.

(** [get_cursor] *)
Definition get_cursor (connection : nat) : M cursor :=
  match engine self with
  | None => throw (no_engine "get_cursor_class")
  | Some _ => ret (Cursor connection [])
  end.

(** The body of the loop of [_execute_batch] for one pair, up to the
    assignment to [total_results]: the sub-result and the cursor. *)
Definition batch_item (cur : cursor) (sub_ql : string)
    : M (gmap string subval * cursor) :=
  cur <~ engine_execute cur sub_ql ;;
  let '(items, cur) := cursor_rows cur in
  let subresult : gmap string subval := <["items" := Items items]> ∅ in
  sc <~ (if default false (WITH_META (config self)) then
           cur <~ engine_execute cur "SHOW META" ;;
           let '(raw, cur) := cursor_rows cur in
           d <~ lift (_normalize_meta raw) ;;
           ret (<["meta" := Flat d]> subresult, cur)
         else ret (subresult, cur)) ;;
  let '(subresult, cur) := sc in
  if default false (WITH_STATUS (config self)) then
    cur <~ engine_execute cur "SHOW STATUS" ;;
    let '(raw, cur) := cursor_rows cur in
    d <~ lift (_normalize_status raw) ;;
    ret (<["status" := Flat d]> subresult, cur)
  else ret (subresult, cur).

(** The loop of [_execute_batch], from a given [total_results]. *)
Fixpoint batch_loop (cur : cursor) (sxql_batch : list (string * string))
    (total_results : gmap string (gmap string subval))
    : M (gmap string (gmap string subval)) :=
  match sxql_batch with
  | [] => ret total_results
  | (sub_ql, sub_alias) :: rest =>
      sc <~ batch_item cur sub_ql ;;
      batch_loop sc.2 rest (<[sub_alias := sc.1]> total_results)
  end.

Definition _execute_batch (cur : cursor) (sxql_batch : list (string * string))
    : M (gmap string (gmap string subval)) :=
  batch_loop cur sxql_batch ∅.

Definition _execute_query (cur : cursor) (sxql_query : string) : M (list row) :=
  cur <~ engine_execute cur sxql_query ;;
  ret (cursor_rows cur).1.

(** The [try] statement of [execute]: the handler calls the error
    translation of the engine and, when that returns, [total_results]
    is still the initial [{}]; the cursor is closed in all cases. *)
Definition execute_try (cur : cursor) (sxql_query : query_item) : M result :=
  fun s =>
    let '(r, s1) :=
      match sxql_query with
      | Batch b => (d <~ _execute_batch cur b ;; ret (ResultDict d)) s
      | Single q => (rows <~ _execute_query cur q ;; ret (ResultRows rows)) s
      end in
    let r' :=
      match r with
      | Return total_results => Return total_results
      | Raise e =>
          match engine_raise_for_exception e with
          | Return _ => Return (ResultDict ∅)
          | Raise e' => Raise e'
          end
      end in
    (r', cursor_close s1).

(** [execute], called by thread [t]. *)
Definition execute (t : nat) (sxql_query : query_item) : M result :=
  with_get_connection self t
    (fun connection =>
       cur <~ get_cursor connection ;;
       execute_try cur sxql_query).

End Executor.

End Connector.


(** * Notions used in the statements *)

Import SqlEngine Connector.
Local Close Scope Z_scope.
Local Open Scope list_scope.

(** ** Traces of the pool *)

Definition is_acquire (ev : event) : bool :=
  match ev with
  | Acquire _ => true
  | _ => false
  end.

(** [within_capacity n out evs]: along [evs], started with [out]
    connections out of the idle deque, every acquisition happens while
    fewer than [n] connections are out.  A released connection comes back,
    an abandoned one does not. *)
Fixpoint within_capacity (n out : nat) (evs : list event) : bool :=
  match evs with
  | [] => true
  | Acquire _ :: evs' => Nat.ltb out n && within_capacity n (S out) evs'
  | Release _ :: evs' => within_capacity n (pred out) evs'
  | Abandon _ :: evs' => within_capacity n out evs'
  end.

(** Number of acquisitions of [evs] that find the idle deque empty. *)
Fixpoint refills (self : SphinxConnector) (evs : list event)
    (sf : state * list (nat * nat)) : nat :=
  match evs with
  | [] => 0
  | ev :: evs' =>
      (match ev, connections_pool sf.1 with
       | Acquire _, [] => 1
       | _, _ => 0
       end)
      + match step self ev sf with
        | Some sf' => refills self evs' sf'
        | None => 0
        end
  end.

(** ** Batches *)

(** The statements one pair of a batch sends on connection [c]: its
    query, then the introspection queries that are enabled. *)
Definition pair_stmts (cfg : Config) (plain : bool) (c : nat)
    (sub_ql : string) : list stmt :=
  Stmt c sub_ql plain ::
    (if default false (WITH_META cfg) then [Stmt c "SHOW META" plain] else [])
    ++ (if default false (WITH_STATUS cfg) then [Stmt c "SHOW STATUS" plain] else []).

(** The statements of the pairs of a batch, in order. *)
Definition batch_stmts (cfg : Config) (plain : bool) (c : nat)
    (b : list (string * string)) : list stmt :=
  concat (map (pair_stmts cfg plain c) b.*1).

(** [sub] is the sub-result of a pair with query [sub_ql] sent on
    connection [c] after the statements [h]: ['items'] holds the rows that
    answer the query; ['meta'] is present exactly when [WITH_META] is
    enabled and is the normalized answer to [SHOW META] sent next;
    ['status'] likewise for [WITH_STATUS] and [SHOW STATUS]; there is no
    other key. *)
Record sub_result_of (drv : driver) (cfg : Config) (plain : bool) (c : nat)
    (h : list stmt) (sub_ql : string) (sub : gmap string subval) : Prop := {
  sub_items :
    ∃ rows, drv h (Stmt c sub_ql plain) = Return rows
            ∧ sub !! "items" = Some (Items rows);
  sub_meta :
    if default false (WITH_META cfg) then
      ∃ raw d, drv (h ++ [Stmt c sub_ql plain]) (Stmt c "SHOW META" plain) = Return raw
               ∧ _normalize_meta raw = Return d
               ∧ sub !! "meta" = Some (Flat d)
    else sub !! "meta" = None;
  sub_status :
    if default false (WITH_STATUS cfg) then
      ∃ raw d,
        drv (h ++ Stmt c sub_ql plain ::
               (if default false (WITH_META cfg) then [Stmt c "SHOW META" plain] else []))
            (Stmt c "SHOW STATUS" plain) = Return raw
        ∧ _normalize_status raw = Return d
        ∧ sub !! "status" = Some (Flat d)
    else sub !! "status" = None;
  sub_keys :
    ∀ k, k ≠ "items" → k ≠ "meta" → k ≠ "status" → sub !! k = None
}.

(** The value a flat mapping gives to [key]: the [v] of the last row
    whose [k] is [key]. *)
Definition last_value (k v : string) (rows : list row) (key : pyval) : option pyval :=
  last (omap (λ x : row, if decide (x !! k = Some key) then x !! v else None) rows).

(** The daemon answers the statements of a pair with query [sub_ql] sent
    on connection [c] after the statements [h]: rows for the query; when
    [WITH_META] is enabled, rows with the columns [Variable_name] and
    [Value] for [SHOW META] sent next; when [WITH_STATUS] is enabled, rows
    with the columns [Counter] and [Value] for [SHOW STATUS] sent after
    that. *)
Definition pair_answered (drv : driver) (cfg : Config) (plain : bool) (c : nat)
    (h : list stmt) (sub_ql : string) : Prop :=
  (∃ rows, drv h (Stmt c sub_ql plain) = Return rows)
  ∧ (default false (WITH_META cfg) = true →
     ∃ raw, drv (h ++ [Stmt c sub_ql plain]) (Stmt c "SHOW META" plain) = Return raw
            ∧ Forall (λ x : row, is_Some (x !! "Variable_name")
                                 ∧ is_Some (x !! "Value")) raw)
  ∧ (default false (WITH_STATUS cfg) = true →
     ∃ raw,
       drv (h ++ Stmt c sub_ql plain ::
              (if default false (WITH_META cfg) then [Stmt c "SHOW META" plain] else []))
           (Stmt c "SHOW STATUS" plain) = Return raw
       ∧ Forall (λ x : row, is_Some (x !! "Counter") ∧ is_Some (x !! "Value")) raw).

(** ** Sample inputs *)

(** A daemon that answers by the text of the statement alone. *)
Definition sample_driver : driver :=
  λ _ st,
    if String.eqb (st_text st) "SELECT 1" then
      Return [{[ "id" := PInt 1%Z ]}]
    else if String.eqb (st_text st) "SELECT 2" then
      Return [{[ "id" := PInt 2%Z ]}; {[ "id" := PInt 3%Z ]}]
    else if String.eqb (st_text st) "SHOW META" then
      Return [<["Variable_name" := PStr "total"]> {[ "Value" := PStr "5" ]}]
    else if String.eqb (st_text st) "SHOW STATUS" then
      Return [<["Counter" := PStr "uptime"]> {[ "Value" := PStr "7" ]}]
    else if String.eqb (st_text st) "SELECT nothing" then
      Raise (PyExc "ProgrammingError"
               [PNone; PStr "no results available"; PNone])
    else
      Raise (PyExc "ProgrammingError"
               [PInt 1064%Z; PStr "syntax error"; PNone]).


(** A configuration with the default [SEARCHD_CONNECTION]. *)
Definition sample_config (name : string) (size : option Z)
    (meta status : option bool) : Config :=
  {| SEARCHD_CONNECTION := ∅; SQL_ENGINE := name; POOL_SIZE := size;
     WITH_META := meta; WITH_STATUS := status |}.

(** An interpreter where every library is installed, and one with none. *)
Definition all_installed : string → bool := λ _, true.
Definition none_installed : string → bool := λ _, false.

(** The options of a connector built from [sample_config], and the
    connector [__init__] builds for it when the library of the engine
    class [cls] is installed. *)
Definition sample_options : gmap string optval :=
  AbstractSqlEngine_init
    (<["port" := OInt 9306%Z]> (<["host" := OStr "127.0.0.1"]> ∅)).

Definition sample_connector (cls : engine_class) (cfg : Config) : SphinxConnector :=
  {| config := cfg; connection_options := sample_options;
     engine := Some (Engine cls sample_options) |}.

(** ** Option tables *)

(** The defaults that [AbstractSqlEngine.__init__] gives to the keys
    that are not set, as one dictionary. *)
Definition engine_defaults : gmap string optval :=
  <["host" := OStr "localhost"]>
    (<["user" := ONone]>
      (<["password" := ONone]>
        (<["db" := ONone]>
          (<["port" := OInt 3306%Z]>
            (<["unix_socket" := ONone]>
              (<["connect_timeout" := OInt 10%Z]>
                (<["read_default_file" := ONone]>
                  (<["use_unicode" := OBool true]>
                    (<["charset" := OStr "utf8"]>
                      (<["sql_mode" := ONone]>
                        (<["cursorclass" := OStr "Cursor"]> ∅))))))))))).

(** The dictionary [SphinxConnector.__init__] starts from. *)
Definition client_defaults : gmap string optval :=
  <["port" := OInt 9306%Z]> (<["host" := OStr "127.0.0.1"]> ∅).

(** Number of blocks of a trace that are left by an exception. *)
Fixpoint abandons (evs : list event) : nat :=
  match evs with
  | [] => 0
  | Abandon _ :: evs' => S (abandons evs')
  | _ :: evs' => abandons evs'
  end.

(** The query texts a caller hands to [execute]. *)
Definition query_texts (sxql_query : query_item) : list string :=
  match sxql_query with
  | Single q => [q]
  | Batch b => b.*1
  end.

(** * Properties *)

(** ** The driver registry *)

Section Registry.
Implicit Types (reg : gmap string engine_class) (name : string).

#[local] Instance str_le_total : Total str_le.
Proof. intros s1 s2. apply String.leb_total. Qed.

Lemma register_all_lookup rs reg name :
  get_engine_class (register_all rs reg) name =
    match last (filter (λ nc, nc.1 = name) rs) with
    | Some nc => Some nc.2
    | None => get_engine_class reg name
    end.
Proof.
  unfold register_all, get_engine_class.
  revert reg. induction rs as [|[n c] rs IH]; intros reg; simpl; [done|].
  rewrite IH. rewrite filter_cons. simpl. unfold register_engine.
  destruct (decide (n = name)) as [->|Hne].
  - rewrite last_cons. destruct (last _); [done|]. by rewrite lookup_insert_eq.
  - destruct (last _); [done|]. by rewrite lookup_insert_ne.
Qed.

Lemma list_engine_names_perm reg :
  list_engine_names reg ≡ₚ (map_to_list reg).*1.
Proof. apply merge_sort_Permutation. Qed.

(** C7. Registering a name twice leaves the later class; after any
    sequence of registrations a lookup gives the class of the last
    registration of that name, and nothing for a name never registered;
    the listing is sorted, without repetition, and holds exactly the
    registered names; after import, 'pymysql' and 'mysqldb' name the same
    class. *)
Theorem registry_contract :
  (∀ reg name c1 c2,
     get_engine_class (register_engine name c2 (register_engine name c1 reg)) name
     = Some c2)
  ∧ (∀ rs name,
       get_engine_class (register_all rs ∅) name
       = snd <$> last (filter (λ nc, nc.1 = name) rs))
  ∧ (∀ reg,
       Sorted str_le (list_engine_names reg)
       ∧ NoDup (list_engine_names reg)
       ∧ ∀ name, name ∈ list_engine_names reg ↔ is_Some (get_engine_class reg name))
  ∧ list_engine_names _driver_registry
    = ["cymysql"; "mysqldb"; "mysqldb1"; "oursql"; "pymysql"; "umysqldb"]
  ∧ get_engine_class _driver_registry "pymysql" = Some PyMySqlEngine
  ∧ get_engine_class _driver_registry "mysqldb" = Some PyMySqlEngine.
Proof.
  split; [|split; [|split; [|split; [|split]]]].
  - intros reg name c1 c2. unfold get_engine_class, register_engine.
    apply lookup_insert_eq.
  - intros rs name. rewrite register_all_lookup.
    unfold get_engine_class. rewrite lookup_empty.
    by destruct (last _).
  - intros reg. split; [|split].
    + apply (Sorted_merge_sort str_le).
    + rewrite list_engine_names_perm. apply NoDup_fst_map_to_list.
    + intros name. rewrite list_engine_names_perm. unfold get_engine_class.
      rewrite list_elem_of_fmap. split.
      * intros [[n c] [-> Hin]]. apply elem_of_map_to_list in Hin. by exists c.
      * intros [c Hc]. exists (name, c). split; [done|].
        by apply elem_of_map_to_list.
  - vm_compute. reflexivity.
  - vm_compute. reflexivity.
  - vm_compute. reflexivity.
Qed.

End Registry.

(** ** Error translation *)

Section Translation.

Lemma abstract_engines_always_raise cls e :
  cls ≠ OurSqlEngine →
  raise_for_exception cls e = Raise (SphinxQLDriverException (OfExc e)).
Proof. intros Hne. by destruct cls. Qed.

Lemma oursql_ignores_other_classes e :
  exc_type_name e ≠ "ProgrammingError" →
  raise_for_exception OurSqlEngine e = Return tt.
Proof.
  intros Hne. simpl. unfold OurSqlEngine_raise_for_exception.
  destruct (String.eqb_spec (exc_type_name e) "ProgrammingError"); [done|].
  reflexivity.
Qed.

(** The cases of the error translation, as the code runs them.
    [OurSqlEngine] looks at the error code only of an exception whose class
    is named [ProgrammingError] and that carries the triple (errno, msg,
    extra): a null code returns, any other code raises the normalized error
    built from the message; for an exception of any other class the method
    returns.  Every other engine raises the normalized error built from
    the exception. *)
Theorem raise_for_exception_cases :
  (∀ msg extra,
     raise_for_exception OurSqlEngine (PyExc "ProgrammingError" [PNone; msg; extra])
     = Return tt)
  ∧ (∀ errno msg extra,
       errno ≠ PNone →
       raise_for_exception OurSqlEngine (PyExc "ProgrammingError" [errno; msg; extra])
       = Raise (SphinxQLDriverException (OfVal msg)))
  ∧ (∀ e,
       exc_type_name e ≠ "ProgrammingError" →
       raise_for_exception OurSqlEngine e = Return tt)
  ∧ (∀ cls e,
       cls ≠ OurSqlEngine →
       raise_for_exception cls e = Raise (SphinxQLDriverException (OfExc e))).
Proof.
  split; [|split; [|split]].
  - reflexivity.
  - intros errno msg extra Hne. by destruct errno.
  - apply oursql_ignores_other_classes.
  - apply abstract_engines_always_raise.
Qed.

Lemma raise_for_exception_cases_witness :
  raise_for_exception OurSqlEngine
    (PyExc "ProgrammingError" [PInt 1064; PStr "syntax error"; PNone])
  = Raise (SphinxQLDriverException (OfVal (PStr "syntax error")))
  ∧ raise_for_exception OurSqlEngine (PyExc "KeyError" [PStr "Value"]) = Return tt
  ∧ raise_for_exception PyMySqlEngine (PyExc "KeyError" [PStr "Value"])
    = Raise (SphinxQLDriverException (OfExc (PyExc "KeyError" [PStr "Value"]))).
Proof.
  destruct raise_for_exception_cases as (_ & Hcode & Hother & Habs).
  split; [|split].
  - apply (Hcode (PInt 1064) (PStr "syntax error") PNone). discriminate.
  - apply (Hother (PyExc "KeyError" [PStr "Value"])). discriminate.
  - apply (Habs PyMySqlEngine (PyExc "KeyError" [PStr "Value"])). discriminate.
Defined.

(** C3, where the code departs from it.  Under oursql an
    [OperationalError] with the non-null error code 2006 is not raised:
    [OurSqlEngine.raise_for_exception] returns, because the error code is
    looked at only when the class is named [ProgrammingError].  The same
    arguments in a [ProgrammingError] raise the normalized error with the
    message, and the method of the other engines raises for this very
    exception. *)
Lemma oursql_swallows_coded_error :
  let args := [PInt 2006%Z; PStr "MySQL server has gone away"; PNone] in
  let e := PyExc "OperationalError" args in
  raise_for_exception OurSqlEngine e = Return tt
  ∧ ¬ (∃ a, raise_for_exception OurSqlEngine e = Raise (SphinxQLDriverException a))
  ∧ raise_for_exception OurSqlEngine (PyExc "ProgrammingError" args)
    = Raise (SphinxQLDriverException (OfVal (PStr "MySQL server has gone away")))
  ∧ raise_for_exception PyMySqlEngine e = Raise (SphinxQLDriverException (OfExc e)).
Proof.
  split; [reflexivity|]. split; [|split; reflexivity].
  intros [a Ha]. discriminate Ha.
Qed.

End Translation.

(** ** The connection pool *)

Section Pool.
Variable self : SphinxConnector.
Variable en : SqlEngine.engine.
Hypothesis has_engine : Connector.engine self = Some en.

Lemma fill_pool_spec n s :
  ∃ s', fill_pool n s = (Return tt, s')
    ∧ connections_pool s' = connections_pool s ++ seq (opened s) n
    ∧ opened s' = opened s + n
    ∧ local s' = local s ∧ sent s' = sent s
    ∧ cursors_closed s' = cursors_closed s
    ∧ connections_closed s' = connections_closed s.
Proof.
  revert s. induction n as [|n IH]; intros s.
  - exists s. simpl. rewrite app_nil_r, Nat.add_0_r. done.
  - simpl. unfold bind at 1. unfold engine_get_connection. unfold bind at 1.
    destruct (IH (set_pool (connections_pool (set_opened (S (opened s)) s)
                              ++ [opened s]) (set_opened (S (opened s)) s)))
      as (s' & Hrun & Hp & Ho & Hl & Hs & Hc & Hcc).
    exists s'. rewrite Hrun. simpl in *. rewrite Hp, Ho.
    rewrite <- app_assoc. simpl. repeat split; try done; lia.
Qed.

Lemma deque_pop_snoc d c : deque_pop (d ++ [c]) = Some (d, c).
Proof. unfold deque_pop. by rewrite last_snoc, removelast_last. Qed.

Lemma deque_pop_nonempty d :
  d ≠ [] → ∃ d' c, deque_pop d = Some (d', c) ∧ d = d' ++ [c].
Proof.
  destruct d as [|x d] using rev_ind; [done|]. intros _.
  exists d, x. by rewrite deque_pop_snoc.
Qed.

(** An acquisition that finds an idle connection takes the rightmost one
    and opens nothing. *)
Lemma enter_nonempty t s :
  connections_pool s ≠ [] →
  ∃ c s', get_connection_enter self t s = (Return c, s')
    ∧ connections_pool s = connections_pool s' ++ [c]
    ∧ opened s' = opened s ∧ sent s' = sent s
    ∧ cursors_closed s' = cursors_closed s
    ∧ local s' = <[t := Some c]> (local s).
Proof.
  intros Hne. unfold get_connection_enter, bind, _init_connection_pool.
  rewrite has_engine.
  destruct (connections_pool s) as [|x d] eqn:Hp; [done|].
  destruct (deque_pop_nonempty (x :: d)) as (d' & c & Hpop & Hd); [done|].
  rewrite Hp, Hpop. exists c, (set_local (<[t:=Some c]> (local s)) (set_pool d' s)).
  simpl. by rewrite Hd.
Qed.

(** An acquisition that finds the idle deque empty opens [POOL_SIZE]
    connections first, when that is positive. *)
Lemma enter_empty t s m :
  connections_pool s = [] →
  pool_size (config self) = S m →
  ∃ s', get_connection_enter self t s = (Return (opened s + m), s')
    ∧ connections_pool s' = seq (opened s) m
    ∧ opened s' = opened s + S m ∧ sent s' = sent s
    ∧ cursors_closed s' = cursors_closed s
    ∧ local s' = <[t := Some (opened s + m)]> (local s).
Proof.
  intros Hp Hn. unfold get_connection_enter, bind, _init_connection_pool.
  rewrite has_engine, Hp, Hn.
  destruct (fill_pool_spec (S m) s) as (s1 & Hrun & Hp1 & Ho & Hl & Hs & Hc & Hcc).
  rewrite Hrun. rewrite Hp1, Hp, seq_S. simpl. rewrite deque_pop_snoc.
  eexists. split; [reflexivity|]. simpl. rewrite Hl. done.
Qed.

Lemma enter_empty_zero t s :
  connections_pool s = [] →
  pool_size (config self) = 0 →
  get_connection_enter self t s
  = (Raise (PyExc "IndexError" [PStr "pop from an empty deque"]), s).
Proof.
  intros Hp Hn. unfold get_connection_enter, bind, _init_connection_pool.
  rewrite has_engine, Hp, Hn. simpl. by rewrite Hp.
Qed.

End Pool.

Lemma init_config installed reg cfg self :
  SphinxConnector_init installed reg cfg = Return self → config self = cfg.
Proof.
  unfold SphinxConnector_init.
  destruct (get_engine_class reg (SQL_ENGINE cfg)) as [cls|].
  - destruct (engine_new _ _ _) as [[e|e] o].
    + by intros [= <-].
    + destruct (String.eqb _ _); [by intros [= <-]|done].
  - by intros [= <-].
Qed.

Section PoolTraces.
Variable self : SphinxConnector.
Variable en : SqlEngine.engine.
Hypothesis has_engine : Connector.engine self = Some en.
Let n := pool_size (config self).

Lemma step_opened ev sf sf' :
  step self ev sf = Some sf' →
  opened sf'.1
  = opened sf.1 + n * match ev, connections_pool sf.1 with
                      | Acquire _, [] => 1
                      | _, _ => 0
                      end.
Proof.
  destruct sf as [s fr]. destruct ev as [t|t|t]; simpl.
  - destruct (connections_pool s) as [|x d] eqn:Hp.
    + destruct n as [|m] eqn:Hn.
      * rewrite (enter_empty_zero self en has_engine t s Hp Hn).
        intros [= <-]. simpl. lia.
      * destruct (enter_empty self en has_engine t s m Hp Hn)
          as (s' & -> & _ & Ho & _).
        intros [= <-]. simpl. lia.
    + destruct (enter_nonempty self en has_engine t s)
        as (c & s' & -> & _ & Ho & _); [by rewrite Hp|].
      intros [= <-]. simpl. lia.
  - destruct (take_frame t fr) as [[c fr']|]; [|done].
    intros [= <-]. simpl. destruct (connections_pool s); lia.
  - destruct (take_frame t fr) as [[c fr']|]; [|done].
    intros [= <-]. simpl. destruct (connections_pool s); lia.
Qed.

(** Connections are opened [POOL_SIZE] at a time, by the acquisitions
    that find the idle deque empty. *)
Lemma run_opened evs sf s fr :
  run self evs sf = Some (s, fr) →
  opened s = opened sf.1 + n * refills self evs sf.
Proof.
  revert sf. induction evs as [|ev evs IH]; intros sf; simpl.
  - intros [= ->]. simpl. lia.
  - destruct (step self ev sf) as [sf'|] eqn:Hstep; [|done].
    intros Hrun. rewrite (IH _ Hrun), (step_opened _ _ _ Hstep). lia.
Qed.

Lemma take_frame_length t fr c fr' :
  take_frame t fr = Some (c, fr') → length fr = S (length fr').
Proof.
  revert c fr'. induction fr as [|[t' c'] fr IH]; intros c fr'; simpl; [done|].
  destruct (decide (t' = t)).
  - by intros [= _ <-].
  - destruct (take_frame t fr) as [[c'' fr'']|]; [|done].
    intros [= _ <-]. simpl. by rewrite (IH _ _ eq_refl).
Qed.

(** While the idle connections and those out add up to [POOL_SIZE],
    and every acquisition finds fewer than [POOL_SIZE] out, nothing more
    is opened. *)
Lemma run_within_filled evs s0 fr0 out s fr :
  run self evs (s0, fr0) = Some (s, fr) →
  within_capacity n out evs = true →
  (length fr0 ≤ out)%nat →
  length (connections_pool s0) + out = n →
  opened s = opened s0.
Proof.
  revert s0 fr0 out. induction evs as [|ev evs IH]; intros s0 fr0 out; simpl.
  - by intros [= -> _].
  - destruct ev as [t|t|t]; simpl.
    + intros Hrun [Hlt Hw]%andb_prop Hfr Hlen.
      apply Nat.ltb_lt in Hlt.
      destruct (enter_nonempty self en has_engine t s0)
        as (c & s' & Henter & Hp & Ho & _).
      { destruct (connections_pool s0); [simpl in Hlen; lia|done]. }
      rewrite Henter in Hrun. rewrite <- Ho.
      apply (IH _ _ (S out) Hrun Hw); [simpl; lia|].
      rewrite Hp, length_app in Hlen. simpl in Hlen. lia.
    + destruct (take_frame t fr0) as [[c fr']|] eqn:Htake; [|done].
      intros Hrun Hw Hfr Hlen. apply take_frame_length in Htake.
      rewrite (IH _ _ (pred out) Hrun Hw); [done|lia|simpl; lia].
    + destruct (take_frame t fr0) as [[c fr']|] eqn:Htake; [|done].
      intros Hrun Hw Hfr Hlen. apply take_frame_length in Htake.
      apply (IH _ _ out Hrun Hw); [lia|done].
Qed.

Lemma run_within_fresh evs s fr :
  run self evs (new_state, []) = Some (s, fr) →
  within_capacity n 0 evs = true →
  opened s = if existsb is_acquire evs then n else 0.
Proof.
  destruct evs as [|[t|t|t] evs]; simpl; [by intros [= <- _]| |done|done].
  intros Hrun [Hlt Hw]%andb_prop. apply Nat.ltb_lt in Hlt.
  destruct n as [|m] eqn:Hn; [lia|].
  destruct (enter_empty self en has_engine t new_state m eq_refl Hn)
    as (s' & Henter & Hp & Ho & _).
  rewrite Henter in Hrun.
  rewrite (run_within_filled _ _ _ 1 _ _ Hrun); [by rewrite Ho| |simpl; lia|].
  - by rewrite Hn.
  - rewrite Hp, length_seq, Hn. lia.
Qed.

End PoolTraces.

Lemma sample_connector_init size meta status :
  SphinxConnector_init all_installed _driver_registry
    (sample_config "pymysql" size meta status)
  = Return (sample_connector PyMySqlEngine (sample_config "pymysql" size meta status)).
Proof. vm_compute. reflexivity. Qed.

(** C1, as the code has it.  For a configuration naming a registered,
    installed driver nothing is opened at construction; connections are
    opened only by an acquisition that finds the idle deque empty,
    [POOL_SIZE] (default 10) at a time; and along any sequence of
    acquisitions, releases and abandons in which every acquisition happens
    while fewer than [POOL_SIZE] connections are out of the deque, this
    happens once, at the first acquisition, and exactly [POOL_SIZE]
    connections are ever opened. *)
Theorem pool_created_in_batches installed reg cfg self en evs s fr :
  SphinxConnector_init installed reg cfg = Return self →
  engine self = Some en →
  run self evs (new_state, []) = Some (s, fr) →
  opened new_state = 0
  ∧ (POOL_SIZE cfg = None → pool_size cfg = 10)
  ∧ opened s = pool_size cfg * refills self evs (new_state, [])
  ∧ (within_capacity (pool_size cfg) 0 evs = true →
     opened s = if existsb is_acquire evs then pool_size cfg else 0).
Proof.
  intros Hinit Hen Hrun. apply init_config in Hinit. subst cfg.
  split; [done|]. split; [|split].
  - unfold pool_size. by intros ->.
  - by rewrite (run_opened self en Hen _ _ _ _ Hrun).
  - intros Hw. by apply (run_within_fresh self en Hen _ _ fr).
Qed.

Lemma pool_created_in_batches_witness :
  let cfg := sample_config "pymysql" (Some 2%Z) None None in
  let self := sample_connector PyMySqlEngine cfg in
  let evs := [Acquire 0; Acquire 1; Release 0; Acquire 2; Release 2; Release 1] in
  ∃ s fr, run self evs (new_state, []) = Some (s, fr) ∧ opened s = 2.
Proof.
  intros cfg self evs.
  destruct (run self evs (new_state, [])) as [[s fr]|] eqn:Hrun;
    [|vm_compute in Hrun; discriminate].
  exists s, fr. split; [done|].
  destruct (pool_created_in_batches all_installed _driver_registry cfg self
              (Engine PyMySqlEngine sample_options) evs s fr)
    as (_ & _ & _ & Hw); [apply sample_connector_init|reflexivity|exact Hrun|].
  apply Hw. vm_compute. reflexivity.
Defined.

(** With [POOL_SIZE = 1], a second acquisition made while the only
    connection is out opens a second connection. *)
Lemma pool_exceeds_pool_size :
  let cfg := sample_config "pymysql" (Some 1%Z) None None in
  let self := sample_connector PyMySqlEngine cfg in
  SphinxConnector_init all_installed _driver_registry cfg = Return self
  ∧ pool_size cfg = 1
  ∧ ∃ s fr, run self [Acquire 0; Acquire 1] (new_state, []) = Some (s, fr)
            ∧ opened s = 2
            ∧ ¬ (opened s ≤ pool_size cfg)%nat.
Proof.
  split; [apply sample_connector_init|]. split; [reflexivity|].
  eexists _, _. split; [vm_compute; reflexivity|]. split; [reflexivity|].
  vm_compute. lia.
Qed.

(** ** The query executor *)

Section Batch.
Variable drv : driver.
Variable self : SphinxConnector.
Variable en : SqlEngine.engine.
Hypothesis has_engine : Connector.engine self = Some en.
Let cfg := config self.
Let plain := plain_query (eng_class en).

Lemma set_sent_set_sent l1 l2 s : set_sent l2 (set_sent l1 s) = set_sent l2 s.
Proof. by destruct s. Qed.

Lemma set_sent_id s : set_sent (sent s) s = s.
Proof. by destruct s. Qed.

Lemma engine_execute_eq cur q s :
  engine_execute drv self cur q s
  = match drv (sent s) (Stmt (cur_conn cur) q plain) with
    | Return rows => (Return (Cursor (cur_conn cur) rows),
                      set_sent (sent s ++ [Stmt (cur_conn cur) q plain]) s)
    | Raise e => (Raise e, set_sent (sent s ++ [Stmt (cur_conn cur) q plain]) s)
    end.
Proof. unfold engine_execute. by rewrite has_engine. Qed.

(** One pair that runs to its end: what it sent and what it built. *)
Lemma batch_item_return cur q s sub cur' s' :
  batch_item drv self cur q s = (Return (sub, cur'), s') →
  sub_result_of drv cfg plain (cur_conn cur) (sent s) q sub
  ∧ cur' = Cursor (cur_conn cur) []
  ∧ s' = set_sent (sent s ++ pair_stmts cfg plain (cur_conn cur) q) s.
Proof.
  unfold batch_item, pair_stmts, bind, lift, ret.
  rewrite engine_execute_eq.
  destruct (drv (sent s) _) as [rows|e] eqn:Hrows; [|done]. simpl.
  fold cfg.
  destruct (default false (WITH_META cfg)) eqn:Hm;
    destruct (default false (WITH_STATUS cfg)) eqn:Hst; simpl;
    repeat match goal with
      | |- context [engine_execute] => rewrite engine_execute_eq; simpl
      | |- context [drv ?h ?st] =>
          destruct (drv h st) as [?|?] eqn:?; simpl; [|done]
      | |- context [_normalize_meta ?r] =>
          destruct (_normalize_meta r) as [?|?] eqn:?; simpl; [|done]
      | |- context [_normalize_status ?r] =>
          destruct (_normalize_status r) as [?|?] eqn:?; simpl; [|done]
      end;
    intros [= <- <- <-];
    (split; [|split; [done|destruct s; simpl; by rewrite <- ?app_assoc]]).
  all: constructor; rewrite ?Hm, ?Hst.
  all: try (intros k ? ? ?; by simplify_map_eq).
  all: try by simplify_map_eq.
  all: try (eexists; split; [eassumption|by simplify_map_eq]).
  all: repeat match goal with
         | H : context [(_ ++ _) ++ _] |- _ => rewrite <- app_assoc in H; simpl in H
         end.
  all: eexists _, _; split; [eassumption|split; [eassumption|by simplify_map_eq]].
Qed.

(** One pair whose statements are all answered runs to its end. *)
Lemma batch_item_total cur q s sub :
  sub_result_of drv cfg plain (cur_conn cur) (sent s) q sub →
  ∃ sub' s', batch_item drv self cur q s
             = (Return (sub', Cursor (cur_conn cur) []), s').
Proof.
  intros [(rows & Hrows & _) Hmeta Hstatus _].
  unfold batch_item, bind, lift, ret.
  rewrite engine_execute_eq, Hrows. simpl. fold cfg.
  destruct (default false (WITH_META cfg));
    destruct (default false (WITH_STATUS cfg)); simpl;
    repeat match goal with
      | H : ∃ raw d, _ |- _ => destruct H as (? & ? & ? & ? & _)
      end;
    repeat (rewrite engine_execute_eq; simpl; rewrite <- ?app_assoc; simpl;
            match goal with
            | H : drv _ _ = Return _ |- context [drv _ _] => rewrite H; simpl
            end;
            match goal with
            | H : _normalize_meta _ = Return _ |- _ => rewrite H; simpl
            | H : _normalize_status _ = Return _ |- _ => rewrite H; simpl
            end);
    by eexists _, _.
Qed.

(** One pair that raises: it sent its first statements, at least one. *)
Lemma batch_item_raise cur q s e s' :
  batch_item drv self cur q s = (Raise e, s') →
  ∃ sfx, sfx ≠ [] ∧ sfx `prefix_of` pair_stmts cfg plain (cur_conn cur) q
         ∧ s' = set_sent (sent s ++ sfx) s.
Proof.
  unfold batch_item, pair_stmts, bind, lift, ret.
  rewrite engine_execute_eq. fold cfg.
  destruct (drv (sent s) _) as [rows|e1] eqn:Hrows; simpl.
  2:{ intros [= <- <-]. eexists [_]. split; [done|]. split; [|done].
      by eexists. }
  destruct (default false (WITH_META cfg)) eqn:Hm;
    destruct (default false (WITH_STATUS cfg)) eqn:Hst; simpl;
    repeat match goal with
      | |- context [engine_execute] => rewrite engine_execute_eq; simpl
      | |- context [drv ?h ?st] =>
          destruct (drv h st) as [?|?] eqn:?; simpl
      | |- context [_normalize_meta ?r] =>
          destruct (_normalize_meta r) as [?|?] eqn:?; simpl
      | |- context [_normalize_status ?r] =>
          destruct (_normalize_status r) as [?|?] eqn:?; simpl
      end;
    intros [= <- <-] || done.
  all: rewrite ?set_sent_set_sent; simpl; rewrite <- ?app_assoc; simpl.
  all: eexists; split; [|split; [|reflexivity]]; [done|].
  all: try reflexivity.
  all: try (by eexists [_]).
  all: try (by eexists [_; _]).
Qed.

Lemma batch_stmts_cons c q a b :
  batch_stmts cfg plain c ((q, a) :: b)
  = pair_stmts cfg plain c q ++ batch_stmts cfg plain c b.
Proof. reflexivity. Qed.

(** A batch that runs to its end: the statements of its pairs were sent
    in order; an alias that does not occur keeps its entry; an alias that
    occurs holds the sub-result of its last pair. *)
Lemma batch_loop_return b cur s total0 d s' :
  batch_loop drv self cur b total0 s = (Return d, s') →
  s' = set_sent (sent s ++ batch_stmts cfg plain (cur_conn cur) b) s
  ∧ (∀ alias, alias ∉ b.*2 → d !! alias = total0 !! alias)
  ∧ (∀ i q alias,
       b !! i = Some (q, alias) →
       alias ∉ (drop (S i) b).*2 →
       ∃ sub, d !! alias = Some sub
              ∧ sub_result_of drv cfg plain (cur_conn cur)
                  (sent s ++ batch_stmts cfg plain (cur_conn cur) (take i b)) q sub).
Proof.
  revert cur s total0. induction b as [|[q0 a0] rest IH]; intros cur s total0.
  - intros [= <- <-]. split; [|split]; [|done|done].
    unfold batch_stmts. simpl. by rewrite app_nil_r, set_sent_id.
  - simpl. unfold bind at 1.
    destruct (batch_item drv self cur q0 s) as [[[sub0 cur1]|e] s1] eqn:Hitem; [|done].
    apply batch_item_return in Hitem as (Hsub & -> & ->).
    intros (-> & Hout & Hin)%IH. simpl in *. split; [|split].
    + rewrite set_sent_set_sent, batch_stmts_cons. by rewrite app_assoc.
    + intros alias [Hne Hnin]%not_elem_of_cons.
      rewrite (Hout _ Hnin). by rewrite lookup_insert_ne.
    + intros [|i] q alias; simpl.
      * intros [= -> ->]. rewrite drop_0. intros Hnin.
        exists sub0. rewrite (Hout _ Hnin), lookup_insert_eq. split; [done|].
        unfold batch_stmts. simpl. by rewrite app_nil_r.
      * intros Hi Hnin. destruct (Hin i q alias Hi Hnin) as (sub & Hd & Hs).
        exists sub. split; [done|].
        by rewrite batch_stmts_cons, app_assoc.
Qed.

(** A batch whose statements are all answered runs to its end. *)
Lemma batch_loop_total b cur s total0 :
  (∀ i q a, b !! i = Some (q, a) →
     ∃ sub, sub_result_of drv cfg plain (cur_conn cur)
              (sent s ++ batch_stmts cfg plain (cur_conn cur) (take i b)) q sub) →
  ∃ d s', batch_loop drv self cur b total0 s = (Return d, s').
Proof.
  revert cur s total0. induction b as [|[q0 a0] rest IH]; intros cur s total0 Hall.
  - by eexists _, _.
  - destruct (Hall 0 q0 a0 eq_refl) as (sub & Hsub).
    unfold batch_stmts in Hsub. simpl in Hsub. rewrite app_nil_r in Hsub.
    destruct (batch_item_total cur q0 s sub Hsub) as (sub' & s1 & Hitem).
    simpl. unfold bind at 1. rewrite Hitem. simpl.
    apply batch_item_return in Hitem as (_ & _ & ->).
    apply IH. intros i q a Hi. simpl.
    destruct (Hall (S i) q a Hi) as (sub1 & Hsub1). exists sub1.
    simpl in Hsub1. by rewrite batch_stmts_cons, app_assoc in Hsub1.
Qed.

(** A batch that raises: some pair raised after the statements of the
    pairs before it and its own first statements; nothing of a later pair
    was sent. *)
Lemma batch_loop_raise b cur s total0 e s' :
  batch_loop drv self cur b total0 s = (Raise e, s') →
  ∃ i q a sfx,
    b !! i = Some (q, a)
    ∧ sfx ≠ [] ∧ sfx `prefix_of` pair_stmts cfg plain (cur_conn cur) q
    ∧ s' = set_sent (sent s ++ batch_stmts cfg plain (cur_conn cur) (take i b) ++ sfx) s.
Proof.
  revert cur s total0. induction b as [|[q0 a0] rest IH]; intros cur s total0; [done|].
  simpl. unfold bind at 1.
  destruct (batch_item drv self cur q0 s) as [[[sub0 cur1]|e1] s1] eqn:Hitem.
  - apply batch_item_return in Hitem as (_ & -> & ->).
    intros (i & q & a & sfx & Hi & Hne & Hpre & ->)%IH. simpl in *.
    exists (S i), q, a, sfx. split; [done|]. split; [done|]. split; [done|].
    rewrite set_sent_set_sent, firstn_cons, batch_stmts_cons.
    by rewrite <- !app_assoc.
  - apply batch_item_raise in Hitem as (sfx & Hne & Hpre & ->).
    intros [= <- <-]. by exists 0, q0, a0, sfx.
Qed.

End Batch.

Section Execute.
Variable drv : driver.
Variable self : SphinxConnector.
Variable en : SqlEngine.engine.
Hypothesis has_engine : Connector.engine self = Some en.
Let cfg := config self.
Let plain := plain_query (eng_class en).

(** An acquisition touches neither the statements sent nor the cursors. *)
Lemma enter_frame t s r s' :
  get_connection_enter self t s = (r, s') →
  sent s' = sent s ∧ cursors_closed s' = cursors_closed s.
Proof.
  destruct (connections_pool s) as [|x d] eqn:Hp.
  - destruct (pool_size (config self)) as [|m] eqn:Hn.
    + rewrite (enter_empty_zero self en has_engine t s Hp Hn). by intros [= <- <-].
    + destruct (enter_empty self en has_engine t s m Hp Hn)
        as (s1 & -> & _ & _ & Hs & Hc & _).
      by intros [= <- <-].
  - destruct (enter_nonempty self en has_engine t s)
      as (c & s1 & -> & _ & _ & Hs & Hc & _); [by rewrite Hp|].
    by intros [= <- <-].
Qed.

(** [execute] once the connection [c] has been acquired. *)
Lemma execute_acquired t q s0 c s :
  get_connection_enter self t s0 = (Return c, s) →
  execute drv self t q s0
  = match execute_try drv self (Cursor c []) q s with
    | (Return a, s2) => (Return a, (get_connection_exit t c s2).2)
    | (Raise e, s2) => (Raise e, s2)
    end.
Proof.
  intros Henter. unfold execute, with_get_connection. rewrite Henter.
  unfold bind, get_cursor. rewrite has_engine. simpl.
  by destruct (execute_try drv self _ q s) as [[a|e] s2].
Qed.

Lemma execute_try_batch cur b s :
  execute_try drv self cur (Batch b) s
  = match _execute_batch drv self cur b s with
    | (Return d, s1) => (Return (ResultDict d), cursor_close s1)
    | (Raise e, s1) =>
        (match raise_for_exception (eng_class en) e with
         | Return _ => Return (ResultDict ∅)
         | Raise e' => Raise e'
         end, cursor_close s1)
    end.
Proof.
  unfold execute_try, bind, ret, engine_raise_for_exception. rewrite has_engine.
  by destruct (_execute_batch drv self cur b s) as [[d|e] s1].
Qed.

Lemma execute_try_single cur q s :
  execute_try drv self cur (Single q) s
  = let s1 := set_sent (sent s ++ [Stmt (cur_conn cur) q plain]) s in
    match drv (sent s) (Stmt (cur_conn cur) q plain) with
    | Return rows => (Return (ResultRows rows), cursor_close s1)
    | Raise e =>
        (match raise_for_exception (eng_class en) e with
         | Return _ => Return (ResultDict ∅)
         | Raise e' => Raise e'
         end, cursor_close s1)
    end.
Proof.
  unfold execute_try, _execute_query, bind, ret, engine_raise_for_exception.
  rewrite has_engine, (engine_execute_eq drv self en has_engine).
  by destruct (drv (sent s) _) as [rows|e].
Qed.

(** The body of [execute] leaves the pool and the thread-local slot as
    they are, and closes its cursor. *)
Lemma execute_try_frame cur q s r s' :
  execute_try drv self cur q s = (r, s') →
  connections_pool s' = connections_pool s ∧ local s' = local s
  ∧ opened s' = opened s ∧ cursors_closed s' = S (cursors_closed s).
Proof.
  destruct q as [q|b].
  - rewrite execute_try_single. simpl.
    by destruct (drv (sent s) _); intros [= <- <-].
  - rewrite execute_try_batch. unfold _execute_batch.
    destruct (batch_loop drv self cur b ∅ s) as [[d|e] s1] eqn:Hloop.
    + apply (batch_loop_return drv self en has_engine) in Hloop as (-> & _).
      by intros [= <- <-].
    + apply (batch_loop_raise drv self en has_engine)
        in Hloop as (i & q & a & sfx & _ & _ & _ & ->).
      by intros [= <- <-].
Qed.

(** When [execute] returns, the connection is back at the left end of the
    idle deque and the slot of the thread is [None]. *)
Lemma execute_return_releases t q s0 c s r s' :
  get_connection_enter self t s0 = (Return c, s) →
  execute drv self t q s0 = (Return r, s') →
  connections_pool s' = c :: connections_pool s
  ∧ local s' !! t = Some None.
Proof.
  intros Henter. rewrite (execute_acquired _ _ _ _ _ Henter).
  destruct (execute_try drv self _ q s) as [[a|e] s2] eqn:Htry; [|done].
  apply execute_try_frame in Htry as (Hp & Hl & _).
  intros [= <- <-]. simpl. rewrite Hp. split; [done|]. by rewrite lookup_insert_eq.
Qed.

(** When [execute] raises after the acquisition, the connection is not put
    back and the slot of the thread still holds it. *)
Lemma execute_raise_keeps t q s0 c s e s' :
  get_connection_enter self t s0 = (Return c, s) →
  local s !! t = Some (Some c) →
  execute drv self t q s0 = (Raise e, s') →
  connections_pool s' = connections_pool s
  ∧ local s' !! t = Some (Some c)
  ∧ cursors_closed s' = S (cursors_closed s).
Proof.
  intros Henter Hslot. rewrite (execute_acquired _ _ _ _ _ Henter).
  destruct (execute_try drv self _ q s) as [[a|e1] s2] eqn:Htry; [done|].
  apply execute_try_frame in Htry as (Hp & Hl & _ & Hc).
  intros [= <- <-]. by rewrite Hp, Hl, Hc.
Qed.

End Execute.

(** ** Results of [execute] *)

(** C8. A bare query string whose statement the daemon answers with
    [rows]: [execute] returns exactly [rows], as a list and not inside a
    dictionary, after sending that one statement. *)
Theorem execute_single_rows drv self en t q s0 c s rows :
  engine self = Some en →
  get_connection_enter self t s0 = (Return c, s) →
  drv (sent s0) (Stmt c q (plain_query (eng_class en))) = Return rows →
  ∃ s', execute drv self t (Single q) s0 = (Return (ResultRows rows), s')
        ∧ sent s' = sent s0 ++ [Stmt c q (plain_query (eng_class en))].
Proof.
  intros Hen Henter Hrows.
  destruct (enter_frame self en Hen _ _ _ _ Henter) as (Hs & _).
  rewrite (execute_acquired drv self en Hen _ _ _ _ _ Henter).
  rewrite (execute_try_single drv self en Hen). simpl.
  rewrite Hs, Hrows. eexists. split; [reflexivity|done].
Qed.

Lemma execute_single_rows_witness :
  let self := sample_connector PyMySqlEngine (sample_config "pymysql" None None None) in
  ∃ s', execute sample_driver self 0 (Single "SELECT 2") new_state
        = (Return (ResultRows [{[ "id" := PInt 2%Z ]}; {[ "id" := PInt 3%Z ]}]), s')
        ∧ sent s' = sent new_state ++ [Stmt 9 "SELECT 2" false].
Proof.
  intros self.
  apply (execute_single_rows sample_driver self (Engine PyMySqlEngine sample_options)
           0 "SELECT 2" new_state 9 (get_connection_enter self 0 new_state).2).
  - reflexivity.
  - vm_compute. reflexivity.
  - reflexivity.
Defined.

(** C4. A batch all of whose statements the daemon answers: [execute]
    returns a dictionary; the statements of the pairs were sent in the
    order of the pairs; an alias that names no pair has no entry; an alias
    holds the sub-result of the last pair that carries it, with the rows of
    that pair's query under ['items'] and ['meta'] and ['status'] when
    enabled; and the empty batch gives the empty dictionary without
    sending anything. *)
Theorem execute_batch_mapping drv self en t b s0 c s :
  engine self = Some en →
  get_connection_enter self t s0 = (Return c, s) →
  (∀ i q a, b !! i = Some (q, a) →
     ∃ sub, sub_result_of drv (config self) (plain_query (eng_class en)) c
              (sent s0 ++ batch_stmts (config self) (plain_query (eng_class en)) c (take i b))
              q sub) →
  ∃ d s',
    execute drv self t (Batch b) s0 = (Return (ResultDict d), s')
    ∧ sent s' = sent s0 ++ batch_stmts (config self) (plain_query (eng_class en)) c b
    ∧ (∀ alias, alias ∉ b.*2 → d !! alias = None)
    ∧ (∀ i q alias,
         b !! i = Some (q, alias) →
         alias ∉ (drop (S i) b).*2 →
         ∃ sub, d !! alias = Some sub
                ∧ sub_result_of drv (config self) (plain_query (eng_class en)) c
                    (sent s0 ++ batch_stmts (config self) (plain_query (eng_class en)) c (take i b))
                    q sub)
    ∧ (b = [] → d = ∅ ∧ sent s' = sent s0).
Proof.
  intros Hen Henter Hall.
  destruct (enter_frame self en Hen _ _ _ _ Henter) as (Hs & _).
  rewrite <- Hs in *.
  destruct (batch_loop_total drv self en Hen b (Cursor c []) s ∅ Hall)
    as (d & s1 & Hloop).
  rewrite (execute_acquired drv self en Hen _ _ _ _ _ Henter).
  rewrite (execute_try_batch drv self en Hen). unfold _execute_batch.
  rewrite Hloop.
  apply (batch_loop_return drv self en Hen) in Hloop as (-> & Hout & Hin).
  simpl in *. exists d. eexists. split; [reflexivity|]. simpl.
  split; [done|]. split; [|split; [done|]].
  - intros alias Hnin. by rewrite (Hout _ Hnin).
  - intros ->. split; [|by rewrite app_nil_r].
    apply map_eq. intros alias. rewrite (Hout alias); [done|].
    simpl. apply not_elem_of_nil.
Qed.

Lemma execute_batch_mapping_witness :
  let self := sample_connector PyMySqlEngine
                (sample_config "pymysql" None (Some true) None) in
  let b := [("SELECT 1", "a"); ("SELECT 2", "a")] in
  ∃ d s',
    execute sample_driver self 0 (Batch b) new_state = (Return (ResultDict d), s')
    ∧ sent s' = sent new_state ++ batch_stmts (config self) false 9 b
    ∧ (∀ alias, alias ∉ b.*2 → d !! alias = None)
    ∧ (∀ i q alias,
         b !! i = Some (q, alias) →
         alias ∉ (drop (S i) b).*2 →
         ∃ sub, d !! alias = Some sub
                ∧ sub_result_of sample_driver (config self) false 9
                    (sent new_state ++ batch_stmts (config self) false 9 (take i b))
                    q sub)
    ∧ (b = [] → d = ∅ ∧ sent s' = sent new_state).
Proof.
  intros self b.
  apply (execute_batch_mapping sample_driver self (Engine PyMySqlEngine sample_options)
           0 b new_state 9 (get_connection_enter self 0 new_state).2).
  - reflexivity.
  - vm_compute. reflexivity.
  - intros i q a Hi.
    destruct i as [|[|i]]; simpl in Hi; try discriminate; injection Hi as <- <-.
    + eexists.
      refine (proj1 (batch_item_return sample_driver self
                       (Engine PyMySqlEngine sample_options) eq_refl
                       (Cursor 9 []) "SELECT 1" new_state _ _ _ _)).
      vm_compute. reflexivity.
    + eexists.
      refine (proj1 (batch_item_return sample_driver self
                       (Engine PyMySqlEngine sample_options) eq_refl
                       (Cursor 9 []) "SELECT 2"
                       (set_sent (batch_stmts (config self) false 9 (take 1 b)) new_state)
                       _ _ _ _)).
      vm_compute. reflexivity.
Defined.

(** ** Errors in [execute] *)

Lemma translation_normalized cls e e' :
  raise_for_exception cls e = Raise e' →
  (cls = OurSqlEngine → ∀ n args, e = PyExc n args → n = "ProgrammingError" →
     length args = 3) →
  ∃ arg, e' = SphinxQLDriverException arg.
Proof.
  destruct cls; simpl; try (intros [= <-]; by eexists).
  unfold OurSqlEngine_raise_for_exception.
  destruct (String.eqb_spec (exc_type_name e) "ProgrammingError") as [Hn|]; [|done].
  destruct e as [n args| |]; simpl in Hn; try done.
  intros Hr Hlen. specialize (Hlen eq_refl n args eq_refl Hn).
  destruct args as [|errno [|msg [|extra [|]]]]; try done.
  destruct errno; [done| |]; injection Hr as <-; by eexists.
Qed.






(** C2, where the code departs from it.  With a pool of two connections,
    a query that the daemon rejects makes [execute] raise the normalized
    error; the cursor has been closed, but the connection that was taken
    (number 1) is not back in the idle deque, which holds connection 0
    only, and the slot of the thread still holds it. *)
Theorem execute_error_keeps_connection_out :
  let self := sample_connector PyMySqlEngine
                (sample_config "pymysql" (Some 2%Z) None None) in
  let e := PyExc "ProgrammingError" [PInt 1064%Z; PStr "syntax error"; PNone] in
  let r := execute sample_driver self 0 (Single "SELECT broken") new_state in
  r.1 = Raise (SphinxQLDriverException (OfExc e))
  ∧ opened r.2 = 2
  ∧ connections_pool r.2 = [0]
  ∧ local r.2 !! 0 = Some (Some 1)
  ∧ cursors_closed r.2 = 1
  ∧ connections_pool
      (execute sample_driver self 0 (Single "SELECT 1") new_state).2 = [1; 0].
Proof. vm_compute. repeat split. Qed.

(** ** Construction of the client *)

Lemma import_all_raise installed ms e :
  import_all installed ms = Raise e → exc_type_name e = "ImportError".
Proof.
  induction ms as [|m ms IH]; simpl; [done|].
  destruct (installed m); [done|]. by intros [= <-].
Qed.

(** C5. When the configured name is not registered, or the library of
    the registered class cannot be imported, [__init__] returns a client
    (without an engine), and every call of [execute] on it raises the
    configuration error, before anything is opened or sent. *)
Theorem misconfigured_client_fails_on_execute installed reg cfg :
  (get_engine_class reg (SQL_ENGINE cfg) = None
   ∨ ∃ cls, get_engine_class reg (SQL_ENGINE cfg) = Some cls
            ∧ import_all installed (imports cls) ≠ Return tt) →
  ∃ self,
    SphinxConnector_init installed reg cfg = Return self
    ∧ engine self = None
    ∧ ∀ drv t q s,
        execute drv self t q s
        = (Raise (ImproperlyConfigured
                    "One of Sql libraries has to be installed to work with searchd"),
           s).
Proof.
  intros Hbad.
  assert (∃ self, SphinxConnector_init installed reg cfg = Return self
                  ∧ engine self = None) as (self & Hinit & Hnone).
  { unfold SphinxConnector_init.
    destruct Hbad as [->|(cls & -> & Himp)]; [by eexists|].
    unfold engine_new.
    destruct (import_all installed (imports cls)) as [[]|e] eqn:Hi; [done|].
    rewrite (import_all_raise _ _ _ Hi). simpl. by eexists. }
  exists self. split; [done|]. split; [done|].
  intros drv t q s.
  unfold execute, with_get_connection, get_connection_enter, bind,
    _init_connection_pool.
  by rewrite Hnone.
Qed.

Lemma misconfigured_client_fails_on_execute_witness :
  (∃ self,
     SphinxConnector_init all_installed _driver_registry
       (sample_config "sqlite" None None None) = Return self
     ∧ engine self = None
     ∧ ∀ drv t q s,
         execute drv self t q s
         = (Raise (ImproperlyConfigured
                     "One of Sql libraries has to be installed to work with searchd"),
            s))
  ∧ (∃ self,
       SphinxConnector_init none_installed _driver_registry
         (sample_config "pymysql" None None None) = Return self
       ∧ engine self = None
       ∧ ∀ drv t q s,
           execute drv self t q s
           = (Raise (ImproperlyConfigured
                       "One of Sql libraries has to be installed to work with searchd"),
              s)).
Proof.
  split.
  - apply (misconfigured_client_fails_on_execute all_installed _driver_registry
             (sample_config "sqlite" None None None)).
    left. vm_compute. reflexivity.
  - apply (misconfigured_client_fails_on_execute none_installed _driver_registry
             (sample_config "pymysql" None None None)).
    right. exists PyMySqlEngine. split; [vm_compute; reflexivity|]. discriminate.
Defined.

(** ** Normalization of [SHOW META] and [SHOW STATUS] *)

Section Normalize.
Variables k v : string.

Lemma key_value_pairs_return rows l :
  key_value_pairs k v rows = Return l →
  Forall2 (λ (x : row) kv, x !! k = Some kv.1 ∧ x !! v = Some kv.2) rows l.
Proof.
  revert l. induction rows as [|x rows IH]; intros l; simpl.
  - intros [= <-]. constructor.
  - unfold getitem.
    destruct (x !! k) as [a|] eqn:Ha; [|done].
    destruct (x !! v) as [b|] eqn:Hb; [|done].
    destruct (key_value_pairs k v rows) as [l'|] eqn:Hl; [|done].
    intros [= <-]. constructor; [done|]. by apply IH.
Qed.

Lemma key_value_pairs_total rows :
  Forall (λ x : row, is_Some (x !! k) ∧ is_Some (x !! v)) rows →
  ∃ l, key_value_pairs k v rows = Return l.
Proof.
  induction 1 as [|x rows [[a Ha] [b Hb]] _ [l IH]]; simpl; [by eexists|].
  unfold getitem. rewrite Ha, Hb, IH. by eexists.
Qed.

Lemma fold_insert_lookup (l : list (pyval * pyval)) (d0 : gmap pyval pyval) key :
  fold_left (λ d kv, <[kv.1 := kv.2]> d) l d0 !! key
  = match last (filter (λ kv, kv.1 = key) l) with
    | Some kv => Some kv.2
    | None => d0 !! key
    end.
Proof.
  revert d0. induction l as [|[a b] l IH]; intros d0; simpl; [done|].
  rewrite IH, filter_cons. simpl.
  destruct (decide (a = key)) as [->|Hne].
  - rewrite last_cons. destruct (last _); [done|]. by rewrite lookup_insert_eq.
  - destruct (last _); [done|]. by rewrite lookup_insert_ne.
Qed.

Lemma pairs_last_value rows l key :
  Forall2 (λ (x : row) kv, x !! k = Some kv.1 ∧ x !! v = Some kv.2) rows l →
  snd <$> last (filter (λ kv, kv.1 = key) l) = last_value k v rows key.
Proof.
  unfold last_value.
  induction 1 as [|x [a b] rows l [Ha Hb] _ IH]; simpl in *; [done|].
  rewrite filter_cons. simpl. rewrite Ha.
  destruct (decide (a = key)) as [->|Hne].
  - rewrite decide_True by done. rewrite Hb. simpl.
    unfold omap in IH. rewrite !last_cons, <- IH. by destruct (last _).
  - rewrite decide_False by congruence. done.
Qed.

(** The flat mapping: each key has the value of the last row that
    carries it; it is built whenever every row has the two columns. *)
Lemma normalize_spec rows :
  Forall (λ x : row, is_Some (x !! k) ∧ is_Some (x !! v)) rows →
  ∃ d, normalize k v rows = Return d
       ∧ ∀ key, d !! key = last_value k v rows key.
Proof.
  intros [l Hl]%key_value_pairs_total. unfold normalize. rewrite Hl.
  eexists. split; [done|]. intros key. unfold dict.
  rewrite fold_insert_lookup, lookup_empty.
  rewrite <- (pairs_last_value rows l key) by by apply key_value_pairs_return.
  by destruct (last _).
Qed.

Lemma normalize_return rows d :
  normalize k v rows = Return d →
  ∀ key, d !! key = last_value k v rows key.
Proof.
  unfold normalize.
  destruct (key_value_pairs k v rows) as [l|] eqn:Hl; [|done].
  intros [= <-] key. unfold dict.
  rewrite fold_insert_lookup, lookup_empty.
  rewrite <- (pairs_last_value rows l key) by by apply key_value_pairs_return.
  by destruct (last _).
Qed.

End Normalize.

Lemma last_occurrence (b : list (string * string)) alias :
  alias ∈ b.*2 →
  ∃ i q, b !! i = Some (q, alias) ∧ alias ∉ (drop (S i) b).*2.
Proof.
  induction b as [|[q0 a0] rest IH]; simpl; [by intros ?%elem_of_nil|].
  intros Hin. destruct (decide (alias ∈ rest.*2)) as [Hr|Hr].
  - destruct (IH Hr) as (i & q & Hi & Hlast). by exists (S i), q.
  - apply elem_of_cons in Hin as [->|]; [|done]. exists 0, q0. by rewrite drop_0.
Qed.

(** An entry of the dictionary [execute] returns for a batch is the
    sub-result of the last pair that carries its alias. *)
Lemma execute_batch_entry drv self en t b s0 c s d s' alias sub :
  engine self = Some en →
  get_connection_enter self t s0 = (Return c, s) →
  execute drv self t (Batch b) s0 = (Return (ResultDict d), s') →
  d !! alias = Some sub →
  ∃ i q, b !! i = Some (q, alias) ∧ (alias ∉ (drop (S i) b).*2)
         ∧ sub_result_of drv (config self) (plain_query (eng_class en)) c
             (sent s0 ++ batch_stmts (config self) (plain_query (eng_class en)) c (take i b))
             q sub.
Proof.
  intros Hen Henter Hexec Hsub.
  destruct (enter_frame self en Hen _ _ _ _ Henter) as (Hs & _).
  rewrite (execute_acquired drv self en Hen _ _ _ _ _ Henter) in Hexec.
  rewrite (execute_try_batch drv self en Hen) in Hexec. unfold _execute_batch in Hexec.
  destruct (batch_loop drv self (Cursor c []) b ∅ s) as [[d1|e] s1] eqn:Hloop.
  - injection Hexec as -> _.
    apply (batch_loop_return drv self en Hen) in Hloop as (_ & Hout & Hin).
    destruct (decide (alias ∈ b.*2)) as [Halias|Halias].
    + destruct (last_occurrence b alias Halias) as (i & q & Hi & Hlast).
      destruct (Hin i q alias Hi Hlast) as (sub' & Hsub' & Hres).
      exists i, q. split; [done|]. split; [done|].
      rewrite Hsub in Hsub'. injection Hsub' as <-. simpl in Hres. by rewrite <- Hs.
    + rewrite (Hout _ Halias), lookup_empty in Hsub. done.
  - destruct (raise_for_exception (eng_class en) e); [|done].
    injection Hexec as <- _. by rewrite lookup_empty in Hsub.
Qed.

(** A pair whose statements the daemon answers has a sub-result. *)
Lemma pair_answered_sub_result drv cfg plain c h q :
  pair_answered drv cfg plain c h q →
  ∃ sub, sub_result_of drv cfg plain c h q sub.
Proof.
  intros ([rows Hrows] & Hmeta & Hstatus).
  destruct (default false (WITH_META cfg)) eqn:Hm;
    destruct (default false (WITH_STATUS cfg)) eqn:Hst.
  - destruct (Hmeta eq_refl) as (raw1 & Hraw1 & [d1 [Hd1 _]]%normalize_spec).
    destruct (Hstatus eq_refl) as (raw2 & Hraw2 & [d2 [Hd2 _]]%normalize_spec).
    exists (<["status" := Flat d2]> (<["meta" := Flat d1]> (<["items" := Items rows]> ∅))).
    constructor; rewrite ?Hm, ?Hst.
    + exists rows. by simplify_map_eq.
    + exists raw1, d1. by simplify_map_eq.
    + exists raw2, d2. by simplify_map_eq.
    + intros k ? ? ?. by simplify_map_eq.
  - destruct (Hmeta eq_refl) as (raw1 & Hraw1 & [d1 [Hd1 _]]%normalize_spec).
    exists (<["meta" := Flat d1]> (<["items" := Items rows]> ∅)).
    constructor; rewrite ?Hm, ?Hst.
    + exists rows. by simplify_map_eq.
    + exists raw1, d1. by simplify_map_eq.
    + by simplify_map_eq.
    + intros k ? ? ?. by simplify_map_eq.
  - destruct (Hstatus eq_refl) as (raw2 & Hraw2 & [d2 [Hd2 _]]%normalize_spec).
    exists (<["status" := Flat d2]> (<["items" := Items rows]> ∅)).
    constructor; rewrite ?Hm, ?Hst.
    + exists rows. by simplify_map_eq.
    + by simplify_map_eq.
    + exists raw2, d2. by simplify_map_eq.
    + intros k ? ? ?. by simplify_map_eq.
  - exists (<["items" := Items rows]> ∅).
    constructor; rewrite ?Hm, ?Hst.
    + exists rows. by simplify_map_eq.
    + by simplify_map_eq.
    + by simplify_map_eq.
    + intros k ? ? ?. by simplify_map_eq.
Qed.

(** A batch all of whose pairs have a sub-result: [execute] returns the
    dictionary that holds, for each alias, the sub-result of the last pair
    that carries it. *)
Lemma execute_batch_answered drv self en t b s0 c s :
  engine self = Some en →
  get_connection_enter self t s0 = (Return c, s) →
  (∀ i q a, b !! i = Some (q, a) →
     ∃ sub, sub_result_of drv (config self) (plain_query (eng_class en)) c
              (sent s0 ++ batch_stmts (config self) (plain_query (eng_class en)) c (take i b))
              q sub) →
  ∃ d s',
    execute drv self t (Batch b) s0 = (Return (ResultDict d), s')
    ∧ ∀ i q alias,
        b !! i = Some (q, alias) →
        alias ∉ (drop (S i) b).*2 →
        ∃ sub, d !! alias = Some sub
               ∧ sub_result_of drv (config self) (plain_query (eng_class en)) c
                   (sent s0 ++ batch_stmts (config self) (plain_query (eng_class en)) c (take i b))
                   q sub.
Proof.
  intros Hen Henter Hall.
  destruct (enter_frame self en Hen _ _ _ _ Henter) as (Hs & _).
  rewrite <- Hs in *.
  destruct (batch_loop_total drv self en Hen b (Cursor c []) s ∅ Hall)
    as (d & s1 & Hloop).
  rewrite (execute_acquired drv self en Hen _ _ _ _ _ Henter).
  rewrite (execute_try_batch drv self en Hen). unfold _execute_batch.
  rewrite Hloop.
  apply (batch_loop_return drv self en Hen) in Hloop as (-> & Hout & Hin).
  exists d. eexists. split; [reflexivity|]. exact Hin.
Qed.

(** C9. The flat mapping built from rows with the columns
    [Variable_name] (or [Counter]) and [Value] gives to each name the value
    of the last row that carries it; the rows of the example give
    [{"total": "5"}].  For a batch whose statements the daemon answers
    (with rows that have these columns), [execute] returns a dictionary in
    which the alias of every pair has a sub-result; when [WITH_META] is
    enabled that sub-result has, under ['meta'], the flat mapping of the
    rows that answered [SHOW META] sent after the query of the last pair
    with this alias, and no ['meta'] otherwise; and likewise ['status'] for
    [WITH_STATUS] and [SHOW STATUS].  The same holds of every entry of any
    dictionary [execute] returns for a batch. *)
Theorem meta_and_status_are_flat_mappings :
  (∀ rows,
     Forall (λ x : row, is_Some (x !! "Variable_name") ∧ is_Some (x !! "Value")) rows →
     ∃ d, _normalize_meta rows = Return d
          ∧ ∀ key, d !! key = last_value "Variable_name" "Value" rows key)
  ∧ (∀ rows,
       Forall (λ x : row, is_Some (x !! "Counter") ∧ is_Some (x !! "Value")) rows →
       ∃ d, _normalize_status rows = Return d
            ∧ ∀ key, d !! key = last_value "Counter" "Value" rows key)
  ∧ _normalize_meta [<["Variable_name" := PStr "total"]> {[ "Value" := PStr "5" ]}]
    = Return {[ PStr "total" := PStr "5" ]}
  ∧ (∀ drv self en t b s0 c s,
       engine self = Some en →
       get_connection_enter self t s0 = (Return c, s) →
       let plain := plain_query (eng_class en) in
       (∀ i q a, b !! i = Some (q, a) →
          pair_answered drv (config self) plain c
            (sent s0 ++ batch_stmts (config self) plain c (take i b)) q) →
       ∃ d s',
         execute drv self t (Batch b) s0 = (Return (ResultDict d), s')
         ∧ ∀ i q alias,
             b !! i = Some (q, alias) →
             alias ∉ (drop (S i) b).*2 →
             ∃ sub, d !! alias = Some sub ∧
               let h := sent s0 ++ batch_stmts (config self) plain c (take i b)
                        ++ [Stmt c q plain] in
               (if default false (WITH_META (config self)) then
                  ∃ raw m, drv h (Stmt c "SHOW META" plain) = Return raw
                           ∧ sub !! "meta" = Some (Flat m)
                           ∧ _normalize_meta raw = Return m
                           ∧ ∀ key, m !! key = last_value "Variable_name" "Value" raw key
                else sub !! "meta" = None)
               ∧ (if default false (WITH_STATUS (config self)) then
                    ∃ raw m,
                      drv (h ++ if default false (WITH_META (config self))
                                then [Stmt c "SHOW META" plain] else [])
                          (Stmt c "SHOW STATUS" plain) = Return raw
                      ∧ sub !! "status" = Some (Flat m)
                      ∧ _normalize_status raw = Return m
                      ∧ ∀ key, m !! key = last_value "Counter" "Value" raw key
                  else sub !! "status" = None))
  ∧ (∀ drv self en t b s0 c s d s' alias sub,
       engine self = Some en →
       get_connection_enter self t s0 = (Return c, s) →
       execute drv self t (Batch b) s0 = (Return (ResultDict d), s') →
       d !! alias = Some sub →
       let plain := plain_query (eng_class en) in
       ∃ i q, b !! i = Some (q, alias) ∧
         let h := sent s0 ++ batch_stmts (config self) plain c (take i b)
                  ++ [Stmt c q plain] in
         (if default false (WITH_META (config self)) then
            ∃ raw m, drv h (Stmt c "SHOW META" plain) = Return raw
                     ∧ sub !! "meta" = Some (Flat m)
                     ∧ _normalize_meta raw = Return m
                     ∧ ∀ key, m !! key = last_value "Variable_name" "Value" raw key
          else sub !! "meta" = None)
         ∧ (if default false (WITH_STATUS (config self)) then
              ∃ raw m,
                drv (h ++ if default false (WITH_META (config self))
                          then [Stmt c "SHOW META" plain] else [])
                    (Stmt c "SHOW STATUS" plain) = Return raw
                ∧ sub !! "status" = Some (Flat m)
                ∧ _normalize_status raw = Return m
                ∧ ∀ key, m !! key = last_value "Counter" "Value" raw key
            else sub !! "status" = None)).
Proof.
  assert (∀ drv cfg plain c h0 q sub,
            sub_result_of drv cfg plain c h0 q sub →
            let h := h0 ++ [Stmt c q plain] in
            (if default false (WITH_META cfg) then
               ∃ raw m, drv h (Stmt c "SHOW META" plain) = Return raw
                        ∧ sub !! "meta" = Some (Flat m)
                        ∧ _normalize_meta raw = Return m
                        ∧ ∀ key, m !! key = last_value "Variable_name" "Value" raw key
             else sub !! "meta" = None)
            ∧ (if default false (WITH_STATUS cfg) then
                 ∃ raw m,
                   drv (h ++ if default false (WITH_META cfg)
                             then [Stmt c "SHOW META" plain] else [])
                       (Stmt c "SHOW STATUS" plain) = Return raw
                   ∧ sub !! "status" = Some (Flat m)
                   ∧ _normalize_status raw = Return m
                   ∧ ∀ key, m !! key = last_value "Counter" "Value" raw key
               else sub !! "status" = None)) as Hparts.
  { intros drv cfg plain c h0 q sub [_ Hmeta Hstatus _] h. subst h.
    rewrite <- ?app_assoc. simpl. split.
    - destruct (default false (WITH_META cfg)); [|done].
      destruct Hmeta as (raw & m & Hraw & Hm & Hlook).
      exists raw, m. split; [done|]. split; [done|]. split; [done|].
      by apply normalize_return.
    - destruct (default false (WITH_STATUS cfg)); [|done].
      destruct Hstatus as (raw & m & Hraw & Hm & Hlook).
      exists raw, m. split; [done|]. split; [done|]. split; [done|].
      by apply normalize_return. }
  split; [|split; [|split; [|split]]].
  - apply normalize_spec.
  - apply normalize_spec.
  - vm_compute. reflexivity.
  - intros drv self en t b s0 c s Hen Henter plain Hall.
    destruct (execute_batch_answered drv self en t b s0 c s Hen Henter)
      as (d & s' & Hexec & Hin).
    { intros i q a Hi. apply pair_answered_sub_result. by apply (Hall i q a). }
    exists d, s'. split; [done|]. intros i q alias Hi Hlast.
    destruct (Hin i q alias Hi Hlast) as (sub & Hsub & Hres).
    exists sub. split; [done|].
    specialize (Hparts _ _ _ _ _ _ _ Hres). cbv zeta in Hparts |- *.
    rewrite <- ?app_assoc in Hparts. rewrite <- ?app_assoc.
    simpl in Hparts |- *. exact Hparts.
  - intros drv self en t b s0 c s d s' alias sub Hen Henter Hexec Hsub plain.
    destruct (execute_batch_entry _ _ _ _ _ _ _ _ _ _ _ _ Hen Henter Hexec Hsub)
      as (i & q & Hi & _ & Hres).
    exists i, q. split; [done|].
    specialize (Hparts _ _ _ _ _ _ _ Hres). cbv zeta in Hparts |- *.
    rewrite <- ?app_assoc in Hparts. rewrite <- ?app_assoc.
    simpl in Hparts |- *. exact Hparts.
Qed.

Lemma meta_and_status_are_flat_mappings_witness :
  let self := sample_connector PyMySqlEngine
                (sample_config "pymysql" None (Some true) (Some true)) in
  let b := [("SELECT 1", "a")] in
  let rows : list row :=
    [<["Variable_name" := PStr "total"]> {[ "Value" := PStr "5" ]};
     <["Variable_name" := PStr "total"]> {[ "Value" := PStr "6" ]}] in
  (∃ d, _normalize_meta rows = Return d
        ∧ ∀ key, d !! key = last_value "Variable_name" "Value" rows key)
  ∧ ∃ d s',
      execute sample_driver self 0 (Batch b) new_state = (Return (ResultDict d), s')
      ∧ ∀ i q alias,
          b !! i = Some (q, alias) →
          alias ∉ (drop (S i) b).*2 →
          ∃ sub, d !! alias = Some sub ∧
            let h := sent new_state ++ batch_stmts (config self) false 9 (take i b)
                     ++ [Stmt 9 q false] in
            (∃ raw m, sample_driver h (Stmt 9 "SHOW META" false) = Return raw
                      ∧ sub !! "meta" = Some (Flat m)
                      ∧ _normalize_meta raw = Return m
                      ∧ ∀ key, m !! key = last_value "Variable_name" "Value" raw key)
            ∧ (∃ raw m,
                 sample_driver (h ++ [Stmt 9 "SHOW META" false])
                   (Stmt 9 "SHOW STATUS" false) = Return raw
                 ∧ sub !! "status" = Some (Flat m)
                 ∧ _normalize_status raw = Return m
                 ∧ ∀ key, m !! key = last_value "Counter" "Value" raw key).
Proof.
  intros self b rows.
  destruct meta_and_status_are_flat_mappings as (Hmeta & _ & _ & Hbatch & _).
  split.
  - apply Hmeta. repeat constructor; by eexists.
  - apply (Hbatch sample_driver self (Engine PyMySqlEngine sample_options)
             0 b new_state 9 (get_connection_enter self 0 new_state).2).
    + reflexivity.
    + vm_compute. reflexivity.
    + intros i q a Hi.
      destruct i as [|i]; [|by destruct i]. injection Hi as <- <-.
      split; [|split].
      * eexists. reflexivity.
      * intros _. eexists. split; [reflexivity|].
        repeat constructor; by eexists.
      * intros _. eexists. split; [reflexivity|].
        repeat constructor; by eexists.
Defined.

(** * Further properties of the code *)

(** ** Options and construction *)

Lemma setdefault_lookup k v (o : gmap string optval) k' :
  setdefault k v o !! k'
  = match o !! k' with
    | Some x => Some x
    | None => if decide (k = k') then Some v else None
    end.
Proof.
  unfold setdefault. destruct (o !! k) as [x|] eqn:Hk.
  - destruct (o !! k') eqn:Hk'; [done|]. case_decide; [congruence|done].
  - rewrite lookup_insert. case_decide; subst.
    + by rewrite Hk.
    + by destruct (o !! k').
Qed.

Lemma AbstractSqlEngine_init_eq (o : gmap string optval) :
  AbstractSqlEngine_init o = o ∪ engine_defaults.
Proof.
  apply map_eq. intros k'.
  rewrite lookup_union. unfold AbstractSqlEngine_init, engine_defaults.
  rewrite !setdefault_lookup, !lookup_insert, lookup_empty.
  destruct (o !! k'); simpl; repeat (case_decide; [done|]); done.
Qed.

(** [AbstractSqlEngine.__init__] completes the options with the twelve
    defaults and never replaces a value that is set; running it again
    changes nothing. *)
Theorem AbstractSqlEngine_init_union (o : gmap string optval) :
  AbstractSqlEngine_init o = o ∪ engine_defaults
  ∧ AbstractSqlEngine_init (AbstractSqlEngine_init o) = AbstractSqlEngine_init o.
Proof.
  split; [apply AbstractSqlEngine_init_eq|]. rewrite !AbstractSqlEngine_init_eq.
  by rewrite <- (assoc (∪)), (idemp (∪) engine_defaults).
Qed.

Lemma import_all_return installed ms :
  import_all installed ms = Return tt ↔ Forall (λ m, installed m = true) ms.
Proof.
  induction ms as [|m ms IH]; simpl; [by split|].
  destruct (installed m) eqn:Hm.
  - rewrite IH. split; [by constructor|by inversion 1].
  - split; [done|]. inversion 1; congruence.
Qed.

(** [__init__] never raises; the client has an engine exactly when the
    configured name is registered and every module its class imports is
    installed, and then the engine is an instance of the registered class
    that shares its options dictionary with the client. *)
Theorem init_engine_iff installed reg cfg :
  ∃ self,
    SphinxConnector_init installed reg cfg = Return self
    ∧ config self = cfg
    ∧ (is_Some (engine self) ↔
       ∃ cls, get_engine_class reg (SQL_ENGINE cfg) = Some cls
              ∧ Forall (λ m, installed m = true) (imports cls))
    ∧ (∀ en, engine self = Some en →
         get_engine_class reg (SQL_ENGINE cfg) = Some (eng_class en)
         ∧ options en = connection_options self).
Proof.
  unfold SphinxConnector_init.
  destruct (get_engine_class reg (SQL_ENGINE cfg)) as [cls|] eqn:Hreg.
  - unfold engine_new.
    destruct (import_all installed (imports cls)) as [[]|e] eqn:Himp.
    + eexists. split; [done|]. split; [done|]. simpl. split.
      * split; [|by eexists]. intros _. exists cls. split; [done|].
        by apply import_all_return.
      * by intros en [= <-].
    + rewrite (import_all_raise _ _ _ Himp). simpl.
      eexists. split; [done|]. split; [done|]. simpl. split; [|done].
      split; [by intros [? ?]|]. intros (cls' & [= <-] & Hall).
      apply import_all_return in Hall. congruence.
  - eexists. split; [done|]. split; [done|]. simpl. split; [|done].
    split; [by intros [? ?]|]. by intros (cls' & ? & _).
Qed.

Lemma init_engine_iff_witness :
  ∃ self,
    SphinxConnector_init none_installed _driver_registry
      (sample_config "mysqldb" None None None) = Return self
    ∧ config self = sample_config "mysqldb" None None None
    ∧ (is_Some (engine self) ↔
       ∃ cls, get_engine_class _driver_registry
                (SQL_ENGINE (sample_config "mysqldb" None None None)) = Some cls
              ∧ Forall (λ m, none_installed m = true) (imports cls))
    ∧ (∀ en, engine self = Some en →
         get_engine_class _driver_registry
           (SQL_ENGINE (sample_config "mysqldb" None None None))
         = Some (eng_class en)
         ∧ options en = connection_options self).
Proof.
  exact (init_engine_iff none_installed _driver_registry
           (sample_config "mysqldb" None None None)).
Defined.

(** The options of a client: the configured [SEARCHD_CONNECTION] first,
    then host 127.0.0.1 and port 9306, then, when the name is registered
    (whether or not the library could be imported), the defaults of the
    engine.  So the host and the port are the configured ones or
    127.0.0.1 and 9306, never the engine's localhost and 3306. *)
Theorem init_connection_options installed reg cfg self :
  SphinxConnector_init installed reg cfg = Return self →
  connection_options self
  = (SEARCHD_CONNECTION cfg ∪ client_defaults)
    ∪ match get_engine_class reg (SQL_ENGINE cfg) with
      | Some _ => engine_defaults
      | None => ∅
      end
  ∧ connection_options self !! "host"
    = Some (default (OStr "127.0.0.1") (SEARCHD_CONNECTION cfg !! "host"))
  ∧ connection_options self !! "port"
    = Some (default (OInt 9306%Z) (SEARCHD_CONNECTION cfg !! "port")).
Proof.
  intros Hinit.
  assert (connection_options self
          = (SEARCHD_CONNECTION cfg ∪ client_defaults)
            ∪ match get_engine_class reg (SQL_ENGINE cfg) with
              | Some _ => engine_defaults
              | None => ∅
              end) as Heq.
  { revert Hinit. unfold SphinxConnector_init.
    destruct (get_engine_class reg (SQL_ENGINE cfg)) as [cls|].
    - unfold engine_new.
      destruct (import_all installed (imports cls)) as [[]|e] eqn:Himp.
      + intros [= <-]. simpl. by rewrite AbstractSqlEngine_init_eq.
      + rewrite (import_all_raise _ _ _ Himp). simpl.
        intros [= <-]. simpl. by rewrite AbstractSqlEngine_init_eq.
    - intros [= <-]. simpl. by rewrite (right_id ∅ (∪)). }
  split; [done|]. rewrite Heq, !lookup_union. unfold client_defaults.
  split.
  - rewrite lookup_insert_ne, lookup_insert_eq by done.
    destruct (SEARCHD_CONNECTION cfg !! "host"); simpl;
      by destruct (_ !! "host").
  - rewrite lookup_insert_eq.
    destruct (SEARCHD_CONNECTION cfg !! "port"); simpl;
      by destruct (_ !! "port").
Qed.

Lemma init_connection_options_witness :
  let cfg := {| SEARCHD_CONNECTION := {[ "port" := OInt 9312%Z ]};
                SQL_ENGINE := "oursql"; POOL_SIZE := None;
                WITH_META := None; WITH_STATUS := None |} in
  let self := {| config := cfg;
                 connection_options :=
                   AbstractSqlEngine_init ({[ "port" := OInt 9312%Z ]} ∪ client_defaults);
                 engine := None |} in
  connection_options self
  = ({[ "port" := OInt 9312%Z ]} ∪ client_defaults) ∪ engine_defaults
  ∧ connection_options self !! "host" = Some (OStr "127.0.0.1")
  ∧ connection_options self !! "port" = Some (OInt 9312%Z).
Proof.
  intros cfg self.
  apply (init_connection_options none_installed _driver_registry cfg self).
  vm_compute. reflexivity.
Defined.

(** ** The pool along a concurrent execution *)

Section PoolInvariants.
Variable self : SphinxConnector.
Variable en : SqlEngine.engine.
Hypothesis has_engine : Connector.engine self = Some en.

Lemma take_frame_perm t (fr : list (nat * nat)) c fr' :
  take_frame t fr = Some (c, fr') → fr ≡ₚ (t, c) :: fr'.
Proof.
  revert c fr'. induction fr as [|[t' c'] fr IH]; intros c fr'; simpl; [done|].
  destruct (decide (t' = t)) as [->|].
  - by intros [= <- <-].
  - destruct (take_frame t fr) as [[c'' fr'']|]; [|done].
    intros [= <- <-]. rewrite (IH _ _ eq_refl). apply Permutation_swap.
Qed.

(** What one event does to the connections that are idle or held by an
    open block, and to the number of connections opened. *)
Lemma step_connections ev s fr s' fr' :
  step self ev (s, fr) = Some (s', fr') →
  match ev with
  | Acquire _ =>
      (opened s' = opened s
       ∧ connections_pool s' ++ fr'.*2 ≡ₚ connections_pool s ++ fr.*2)
      ∨ (∃ m, connections_pool s = [] ∧ opened s' = opened s + S m
              ∧ connections_pool s' ++ fr'.*2
                ≡ₚ seq (opened s) (S m) ++ fr.*2)
  | Release _ =>
      opened s' = opened s
      ∧ connections_pool s' ++ fr'.*2 ≡ₚ connections_pool s ++ fr.*2
  | Abandon _ =>
      opened s' = opened s
      ∧ ∃ c, c :: connections_pool s' ++ fr'.*2 ≡ₚ connections_pool s ++ fr.*2
  end.
Proof.
  destruct ev as [t|t|t]; unfold step.
  - destruct (connections_pool s) as [|x d] eqn:Hp.
    + destruct (pool_size (config self)) as [|m] eqn:Hn.
      * rewrite (enter_empty_zero self en has_engine t s Hp Hn).
        intros [= <- <-]. left. by rewrite Hp.
      * destruct (enter_empty self en has_engine t s m Hp Hn)
          as (s1 & -> & Hp1 & Ho & _).
        intros [= <- <-]. right. exists m. split; [done|]. split; [done|].
        rewrite Hp1, seq_S. simpl. by rewrite <- app_assoc.
    + destruct (enter_nonempty self en has_engine t s)
        as (c & s1 & -> & Hp1 & Ho & _); [by rewrite Hp|].
      intros [= <- <-]. left. split; [done|].
      rewrite <- Hp, Hp1. simpl. by rewrite <- app_assoc.
  - destruct (take_frame t fr) as [[c fr1]|] eqn:Htake; [|done].
    intros [= <- <-]. simpl. split; [done|].
    rewrite (take_frame_perm _ _ _ _ Htake). simpl.
    by rewrite Permutation_middle.
  - destruct (take_frame t fr) as [[c fr1]|] eqn:Htake; [|done].
    intros [= <- <-]. split; [done|]. exists c.
    rewrite (take_frame_perm _ _ _ _ Htake). simpl.
    by rewrite Permutation_middle.
Qed.

Lemma run_cons ev evs sf :
  run self (ev :: evs) sf
  = match step self ev sf with
    | Some sf' => run self evs sf'
    | None => None
    end.
Proof. reflexivity. Qed.

Lemma run_connections_distinct evs s0 fr0 s fr :
  run self evs (s0, fr0) = Some (s, fr) →
  NoDup (connections_pool s0 ++ fr0.*2) →
  Forall (λ c, c < opened s0) (connections_pool s0 ++ fr0.*2) →
  NoDup (connections_pool s ++ fr.*2)
  ∧ Forall (λ c, c < opened s) (connections_pool s ++ fr.*2).
Proof.
  revert s0 fr0. induction evs as [|ev evs IH]; intros s0 fr0.
  - by intros [= <- <-].
  - rewrite run_cons.
    destruct (step self ev (s0, fr0)) as [[s1 fr1]|] eqn:Hstep; [|done].
    intros Hrun Hnd Hlt. apply (IH _ _ Hrun); clear IH Hrun.
    + apply step_connections in Hstep. destruct ev as [t|t|t].
      * destruct Hstep as [(_ & ->)|(m & Hp0 & _ & ->)]; [done|].
        rewrite Hp0 in Hnd, Hlt. simpl in Hnd, Hlt.
        apply NoDup_app. split; [apply NoDup_seq|]. split; [|done].
        intros c Hc%elem_of_seq Hin.
        rewrite Forall_forall in Hlt. specialize (Hlt c Hin). lia.
      * by destruct Hstep as (_ & ->).
      * destruct Hstep as (_ & c & Hperm). rewrite <- Hperm in Hnd.
        by apply NoDup_cons in Hnd as [_ ?].
    + apply step_connections in Hstep. destruct ev as [t|t|t].
      * destruct Hstep as [(-> & ->)|(m & Hp0 & -> & ->)]; [done|].
        rewrite Hp0 in Hlt. simpl in Hlt.
        apply Forall_app. split.
        -- apply Forall_forall. intros c Hc%elem_of_seq. lia.
        -- eapply Forall_impl; [done|]. simpl. lia.
      * by destruct Hstep as (-> & ->).
      * destruct Hstep as (-> & c & Hperm). rewrite <- Hperm in Hlt.
        by apply Forall_cons in Hlt as [_ ?].
Qed.

Lemma run_connections_count evs s0 fr0 s fr k :
  run self evs (s0, fr0) = Some (s, fr) →
  length (connections_pool s0) + length fr0 + k = opened s0 →
  length (connections_pool s) + length fr + (k + abandons evs) = opened s.
Proof.
  revert s0 fr0 k. induction evs as [|ev evs IH]; intros s0 fr0 k.
  - intros [= <- <-]. simpl. lia.
  - rewrite run_cons.
    destruct (step self ev (s0, fr0)) as [[s1 fr1]|] eqn:Hstep; [|done].
    intros Hrun Hk. apply step_connections in Hstep.
    assert (∀ l1 l2 : list (nat * nat), ∀ p1 p2 : list nat,
              p1 ++ l1.*2 ≡ₚ p2 ++ l2.*2 →
              length p1 + length l1 = length p2 + length l2) as Hlen.
    { intros l1 l2 p1 p2 Hp%Permutation_length.
      by rewrite !length_app, !length_fmap in Hp. }
    destruct ev as [t|t|t].
    + apply (IH _ _ k Hrun).
      destruct Hstep as [(-> & Hp%Hlen)|(m & Hp0 & -> & Hp)]; [lia|].
      apply Permutation_length in Hp.
      rewrite !length_app, !length_fmap, length_seq in Hp.
      rewrite Hp0 in Hk. simpl in Hk. lia.
    + apply (IH _ _ k Hrun). destruct Hstep as (-> & Hp%Hlen). lia.
    + simpl abandons.
      replace (k + S (abandons evs)) with (S k + abandons evs) by lia.
      apply (IH _ _ (S k) Hrun). destruct Hstep as (-> & c & Hp).
      apply Permutation_length in Hp. simpl in Hp.
      rewrite !length_app, !length_fmap in Hp. lia.
Qed.

End PoolInvariants.

(** Along any concurrent execution that starts with a fresh client, the
    connections that are idle and those held by the open blocks are
    pairwise distinct, and each of them was opened by the client: a
    connection is never idle and held at once, nor held by two blocks. *)
Theorem pool_connections_distinct self en evs s fr :
  engine self = Some en →
  run self evs (new_state, []) = Some (s, fr) →
  NoDup (connections_pool s ++ fr.*2)
  ∧ Forall (λ c, c < opened s) (connections_pool s ++ fr.*2).
Proof.
  intros Hen Hrun.
  apply (run_connections_distinct self en Hen evs new_state [] s fr Hrun);
    simpl; constructor.
Qed.

Lemma pool_connections_distinct_witness :
  let self := sample_connector PyMySqlEngine
                (sample_config "pymysql" (Some 2%Z) None None) in
  let evs := [Acquire 0; Acquire 1; Acquire 2; Release 1; Abandon 0] in
  let sf := default (new_state, []) (run self evs (new_state, [])) in
  NoDup (connections_pool sf.1 ++ (sf.2).*2)
  ∧ Forall (λ c, c < opened sf.1) (connections_pool sf.1 ++ (sf.2).*2).
Proof.
  intros self evs sf.
  apply (pool_connections_distinct self (Engine PyMySqlEngine sample_options) evs).
  - reflexivity.
  - vm_compute. reflexivity.
Defined.

(** Along any concurrent execution that starts with a fresh client, every
    connection opened is idle, held by an open block, or was held by a
    block left by an exception: each such block loses exactly one
    connection, which is neither put back nor closed. *)
Theorem pool_connections_accounted self en evs s fr :
  engine self = Some en →
  run self evs (new_state, []) = Some (s, fr) →
  length (connections_pool s) + length fr + abandons evs = opened s.
Proof.
  intros Hen Hrun.
  by apply (run_connections_count self en Hen evs new_state [] s fr 0 Hrun).
Qed.

Lemma pool_connections_accounted_witness :
  let self := sample_connector PyMySqlEngine
                (sample_config "pymysql" (Some 2%Z) None None) in
  let evs := [Acquire 0; Acquire 1; Acquire 2; Release 1; Abandon 0] in
  let sf := default (new_state, []) (run self evs (new_state, [])) in
  length (connections_pool sf.1) + length sf.2 + 1 = opened sf.1.
Proof.
  intros self evs sf.
  apply (pool_connections_accounted self (Engine PyMySqlEngine sample_options) evs).
  - reflexivity.
  - vm_compute. reflexivity.
Defined.

(** ** Closing, and a pool of size zero *)

(** [close_connections] records every idle connection as closed and empties
    the deque; a second call changes nothing more; and the client stays
    usable: the next acquisition opens [POOL_SIZE] new connections and
    hands out the last of them. *)
Theorem close_then_acquire self en t t' s m :
  engine self = Some en →
  pool_size (config self) = S m →
  let s1 := (close_connections t' s).2 in
  (close_connections t' s1).2 = s1
  ∧ connections_pool s1 = []
  ∧ connections_closed s1 = connections_closed s ++ connections_pool s
  ∧ local s1 !! t' = None
  ∧ ∃ s2, get_connection_enter self t s1 = (Return (opened s + m), s2)
          ∧ opened s2 = opened s + S m
          ∧ connections_pool s2 = seq (opened s) m
          ∧ connections_closed s2 = connections_closed s1.
Proof.
  intros Hen Hn s1. split; [|split; [done|split; [done|split]]].
  - subst s1. unfold close_connections. destruct s. simpl.
    by rewrite app_nil_r, delete_delete_eq.
  - subst s1. simpl. apply lookup_delete_eq.
  - destruct (fill_pool_spec (S m) s1) as (s2 & Hfill & Hp & Ho & Hl & _ & _ & Hcc).
    unfold get_connection_enter, bind, _init_connection_pool.
    rewrite Hen, Hn. change (connections_pool s1) with (@nil nat).
    rewrite Hfill, Hp, seq_S. simpl. rewrite deque_pop_snoc.
    eexists. split; [done|]. simpl. by rewrite Ho, Hcc.
Qed.

Lemma close_then_acquire_witness :
  let self := sample_connector PyMySqlEngine
                (sample_config "pymysql" (Some 3%Z) None None) in
  let s := State [2; 0] ∅ 3 [] 0 [] in
  let s1 := (close_connections 0 s).2 in
  (close_connections 0 s1).2 = s1
  ∧ connections_pool s1 = []
  ∧ connections_closed s1 = [] ++ [2; 0]
  ∧ local s1 !! 0 = None
  ∧ ∃ s2, get_connection_enter self 1 s1 = (Return (3 + 2), s2)
          ∧ opened s2 = 3 + 3
          ∧ connections_pool s2 = seq 3 2
          ∧ connections_closed s2 = connections_closed s1.
Proof.
  intros self s.
  apply (close_then_acquire self (Engine PyMySqlEngine sample_options) 1 0 s 2);
    reflexivity.
Defined.

(** With a [POOL_SIZE] that is zero or negative nothing is ever opened:
    on a client whose deque is empty every [execute] raises the
    [IndexError] of [deque.pop], sends nothing and changes nothing. *)
Theorem nonpositive_pool_size_raises drv self en t q s z :
  engine self = Some en →
  POOL_SIZE (config self) = Some z →
  (z ≤ 0)%Z →
  connections_pool s = [] →
  execute drv self t q s
  = (Raise (PyExc "IndexError" [PStr "pop from an empty deque"]), s).
Proof.
  intros Hen Hz Hle Hp.
  assert (pool_size (config self) = 0) as Hn.
  { unfold pool_size. rewrite Hz. simpl. lia. }
  unfold execute, with_get_connection.
  by rewrite (enter_empty_zero self en Hen t s Hp Hn).
Qed.

Lemma nonpositive_pool_size_raises_witness :
  let self := sample_connector PyMySqlEngine
                (sample_config "pymysql" (Some (-4)%Z) None None) in
  execute sample_driver self 0 (Single "SELECT 1") new_state
  = (Raise (PyExc "IndexError" [PStr "pop from an empty deque"]), new_state).
Proof.
  intros self.
  apply (nonpositive_pool_size_raises sample_driver self
           (Engine PyMySqlEngine sample_options) 0 (Single "SELECT 1")
           new_state (-4)%Z); [reflexivity|reflexivity|lia|reflexivity].
Defined.

(** ** One call of [execute] on a pool with an idle connection *)

Section OneCall.
Variable drv : driver.
Variable self : SphinxConnector.
Variable en : SqlEngine.engine.
Hypothesis has_engine : Connector.engine self = Some en.

Lemma enter_rightmost t s0 d c :
  connections_pool s0 = d ++ [c] →
  ∃ s, get_connection_enter self t s0 = (Return c, s)
       ∧ connections_pool s = d ∧ opened s = opened s0
       ∧ sent s = sent s0 ∧ cursors_closed s = cursors_closed s0
       ∧ local s = <[t := Some c]> (local s0).
Proof.
  intros Hp.
  destruct (enter_nonempty self en has_engine t s0)
    as (c' & s & Henter & Hp' & Ho & Hs & Hc & Hl).
  { rewrite Hp. by destruct d. }
  rewrite Hp in Hp'. apply app_inj_tail in Hp' as [-> ->].
  by exists s.
Qed.

End OneCall.

(** A call of [execute] that returns takes the rightmost idle connection
    and puts it back at the left end, so successive calls go round the
    connections; it opens nothing, closes its cursor and leaves the slot
    of the thread at [None]. *)
Theorem execute_return_rotates drv self en t q s0 d c r s' :
  engine self = Some en →
  connections_pool s0 = d ++ [c] →
  execute drv self t q s0 = (Return r, s') →
  connections_pool s' = c :: d
  ∧ local s' !! t = Some None
  ∧ opened s' = opened s0
  ∧ cursors_closed s' = S (cursors_closed s0).
Proof.
  intros Hen Hp Hexec.
  destruct (enter_rightmost self en Hen t s0 d c Hp)
    as (s & Henter & Hps & Ho & _ & Hc & _).
  rewrite (execute_acquired drv self en Hen _ _ _ _ _ Henter) in Hexec.
  destruct (execute_try drv self _ q s) as [[a|e] s2] eqn:Htry; [|done].
  apply (execute_try_frame drv self en Hen) in Htry as (Hp2 & _ & Ho2 & Hc2).
  injection Hexec as <- <-. simpl.
  rewrite Hp2, Hps, Ho2, Ho, Hc2, Hc, lookup_insert_eq. done.
Qed.

Lemma execute_return_rotates_witness :
  let self := sample_connector PyMySqlEngine
                (sample_config "pymysql" None None None) in
  let s0 := State [4; 7; 5] ∅ 8 [] 0 [] in
  let x := execute sample_driver self 0 (Single "SELECT 1") s0 in
  connections_pool x.2 = 5 :: [4; 7]
  ∧ local x.2 !! 0 = Some None
  ∧ opened x.2 = 8
  ∧ cursors_closed x.2 = 1.
Proof.
  intros self s0 x.
  apply (execute_return_rotates sample_driver self
           (Engine PyMySqlEngine sample_options) 0 (Single "SELECT 1")
           s0 [4; 7] 5 (ResultRows [{[ "id" := PInt 1%Z ]}]) x.2).
  - reflexivity.
  - reflexivity.
  - vm_compute. reflexivity.
Defined.

(** A call of [execute] that raises after taking the rightmost idle
    connection does not put it back: the deque is one connection shorter,
    the slot of the thread still holds the connection, and only the cursor
    has been closed. *)
Theorem execute_raise_loses_connection drv self en t q s0 d c e s' :
  engine self = Some en →
  connections_pool s0 = d ++ [c] →
  execute drv self t q s0 = (Raise e, s') →
  connections_pool s' = d
  ∧ local s' !! t = Some (Some c)
  ∧ opened s' = opened s0
  ∧ cursors_closed s' = S (cursors_closed s0)
  ∧ connections_closed s' = connections_closed s0.
Proof.
  intros Hen Hp Hexec.
  destruct (enter_rightmost self en Hen t s0 d c Hp)
    as (s & Henter & Hps & Ho & _ & Hc & Hl).
  assert (connections_closed s = connections_closed s0) as Hcc.
  { revert Henter. unfold get_connection_enter, bind, _init_connection_pool.
    rewrite Hen. destruct (connections_pool s0) as [|x l] eqn:Hp0; [by destruct d|].
    rewrite Hp0.
    destruct (deque_pop (x :: l)) as [[rest lc]|]; [by intros [= _ <-]|done]. }
  rewrite (execute_acquired drv self en Hen _ _ _ _ _ Henter) in Hexec.
  destruct (execute_try drv self _ q s) as [[a|e1] s2] eqn:Htry; [done|].
  injection Hexec as <- <-.
  assert (connections_closed s2 = connections_closed s) as Hcc2.
  { destruct q as [q|b].
    - rewrite (execute_try_single drv self en Hen) in Htry. simpl in Htry.
      by destruct (drv (sent s) _); injection Htry as _ <-.
    - rewrite (execute_try_batch drv self en Hen) in Htry.
      unfold _execute_batch in Htry.
      destruct (batch_loop drv self _ b ∅ s) as [[d1|e2] s1] eqn:Hloop.
      + apply (batch_loop_return drv self en Hen) in Hloop as (-> & _).
        by injection Htry as _ <-.
      + apply (batch_loop_raise drv self en Hen)
          in Hloop as (i & q & a & sfx & _ & _ & _ & ->).
        by injection Htry as _ <-. }
  apply (execute_try_frame drv self en Hen) in Htry as (Hp2 & Hl2 & Ho2 & Hc2).
  rewrite Hp2, Hps, Hl2, Hl, Ho2, Ho, Hc2, Hc, Hcc2, Hcc, lookup_insert_eq. done.
Qed.

Lemma execute_raise_loses_connection_witness :
  let self := sample_connector PyMySqlEngine
                (sample_config "pymysql" None None None) in
  let s0 := State [4; 7; 5] ∅ 8 [] 0 [] in
  let x := execute sample_driver self 0 (Single "SELECT broken") s0 in
  connections_pool x.2 = [4; 7]
  ∧ local x.2 !! 0 = Some (Some 5)
  ∧ opened x.2 = 8
  ∧ cursors_closed x.2 = 1
  ∧ connections_closed x.2 = [].
Proof.
  intros self s0 x.
  apply (execute_raise_loses_connection sample_driver self
           (Engine PyMySqlEngine sample_options) 0 (Single "SELECT broken")
           s0 [4; 7] 5
           (SphinxQLDriverException
              (OfExc (PyExc "ProgrammingError"
                        [PInt 1064%Z; PStr "syntax error"; PNone]))) x.2).
  - reflexivity.
  - reflexivity.
  - vm_compute. reflexivity.
Defined.

(** A bare query that the daemon rejects: exactly that statement is sent;
    [execute] raises what the error translation of the engine raises, the
    normalized error for every engine but oursql; and when the translation
    swallows the error, [execute] returns the empty dictionary, not a
    list of rows. *)
Theorem execute_single_error drv self en t q s0 c s e :
  engine self = Some en →
  get_connection_enter self t s0 = (Return c, s) →
  drv (sent s0) (Stmt c q (plain_query (eng_class en))) = Raise e →
  let x := execute drv self t (Single q) s0 in
  sent x.2 = sent s0 ++ [Stmt c q (plain_query (eng_class en))]
  ∧ x.1 = match raise_for_exception (eng_class en) e with
          | Return _ => Return (ResultDict ∅)
          | Raise e' => Raise e'
          end
  ∧ (eng_class en ≠ OurSqlEngine → x.1 = Raise (SphinxQLDriverException (OfExc e))).
Proof.
  intros Hen Henter He x.
  destruct (enter_frame self en Hen _ _ _ _ Henter) as (Hs & _).
  assert (execute drv self t (Single q) s0 = x) as Hx by done. clearbody x.
  rewrite (execute_acquired drv self en Hen _ _ _ _ _ Henter) in Hx.
  rewrite (execute_try_single drv self en Hen) in Hx. simpl in Hx.
  rewrite Hs, He in Hx.
  assert (sent x.2 = sent s0 ++ [Stmt c q (plain_query (eng_class en))]
          ∧ x.1 = match raise_for_exception (eng_class en) e with
                  | Return _ => Return (ResultDict ∅)
                  | Raise e' => Raise e'
                  end) as [H1 H2].
  { by destruct (raise_for_exception (eng_class en) e); subst x. }
  split; [done|]. split; [done|]. intros Hne. rewrite H2.
  by rewrite (abstract_engines_always_raise _ e Hne).
Qed.

Lemma execute_single_error_witness :
  let self := sample_connector OurSqlEngine
                (sample_config "oursql" None None None) in
  let e := PyExc "ProgrammingError" [PNone; PStr "no results available"; PNone] in
  let x := execute sample_driver self 0 (Single "SELECT nothing") new_state in
  sent x.2 = sent new_state ++ [Stmt 9 "SELECT nothing" true]
  ∧ x.1 = Return (ResultDict ∅)
  ∧ (OurSqlEngine ≠ OurSqlEngine → x.1 = Raise (SphinxQLDriverException (OfExc e))).
Proof.
  intros self e x.
  apply (execute_single_error sample_driver self (Engine OurSqlEngine sample_options)
           0 "SELECT nothing" new_state 9 (get_connection_enter self 0 new_state).2 e).
  - reflexivity.
  - vm_compute. reflexivity.
  - reflexivity.
Defined.

(** ** What [execute] sends *)

Section Sent.
Variable cfg : Config.
Variable plain : bool.
Variable c : nat.
Variable texts : list string.

Let allowed (st : stmt) : Prop :=
  st_conn st = c ∧ st_plain st = plain
  ∧ (st_text st ∈ texts
     ∨ (st_text st = "SHOW META" ∧ default false (WITH_META cfg) = true)
     ∨ (st_text st = "SHOW STATUS" ∧ default false (WITH_STATUS cfg) = true)).

Lemma pair_stmts_allowed q :
  q ∈ texts → Forall allowed (pair_stmts cfg plain c q).
Proof.
  intros Hq. unfold pair_stmts.
  constructor; [by split; [|split; [|left]]|].
  apply Forall_app. split.
  - destruct (default false (WITH_META cfg)) eqn:Hm; constructor; [|constructor].
    split; [done|]. split; [done|]. right. by left.
  - destruct (default false (WITH_STATUS cfg)) eqn:Hm; constructor; [|constructor].
    split; [done|]. split; [done|]. right. by right.
Qed.

Lemma batch_stmts_allowed (b : list (string * string)) :
  b.*1 ⊆ texts → Forall allowed (batch_stmts cfg plain c b).
Proof.
  intros Hsub. unfold batch_stmts. apply Forall_concat, Forall_fmap.
  apply Forall_forall. intros q Hq. simpl. apply pair_stmts_allowed. by apply Hsub.
Qed.

End Sent.

(** Whatever its outcome, a call of [execute] sends its statements on the
    connection it acquired, with the [plain_query] flag of its engine,
    and sends nothing but the texts the caller gave and, only when the
    option is enabled, [SHOW META] and [SHOW STATUS]. *)
Theorem execute_sends_only_callers_queries drv self en t q s0 c s r s' :
  engine self = Some en →
  get_connection_enter self t s0 = (Return c, s) →
  execute drv self t q s0 = (r, s') →
  ∃ new,
    sent s' = sent s0 ++ new
    ∧ Forall (λ st,
        st_conn st = c ∧ st_plain st = plain_query (eng_class en)
        ∧ (st_text st ∈ query_texts q
           ∨ (st_text st = "SHOW META"
              ∧ default false (WITH_META (config self)) = true)
           ∨ (st_text st = "SHOW STATUS"
              ∧ default false (WITH_STATUS (config self)) = true))) new.
Proof.
  intros Hen Henter Hexec.
  destruct (enter_frame self en Hen _ _ _ _ Henter) as (Hs & _).
  rewrite (execute_acquired drv self en Hen _ _ _ _ _ Henter) in Hexec.
  assert (∃ new r2 s2, execute_try drv self (Cursor c []) q s = (r2, s2)
            ∧ sent s2 = sent s ++ new
            ∧ Forall (λ st,
                st_conn st = c ∧ st_plain st = plain_query (eng_class en)
                ∧ (st_text st ∈ query_texts q
                   ∨ (st_text st = "SHOW META"
                      ∧ default false (WITH_META (config self)) = true)
                   ∨ (st_text st = "SHOW STATUS"
                      ∧ default false (WITH_STATUS (config self)) = true))) new)
    as (new & r2 & s2 & Htry & Hsent & Hall).
  { destruct q as [q|b].
    - rewrite (execute_try_single drv self en Hen). simpl.
      exists [Stmt c q (plain_query (eng_class en))].
      destruct (drv (sent s) _); eexists _, _; (split; [done|]); (split; [done|]);
        (constructor; [|constructor]); simpl;
        (split; [done|]); (split; [done|]); left; apply list_elem_of_here.
    - rewrite (execute_try_batch drv self en Hen). unfold _execute_batch.
      destruct (batch_loop drv self _ b ∅ s) as [[d1|e2] s1] eqn:Hloop.
      + apply (batch_loop_return drv self en Hen) in Hloop as (-> & _).
        eexists _, _, _. split; [done|]. split; [done|]. simpl.
        by apply batch_stmts_allowed.
      + apply (batch_loop_raise drv self en Hen)
          in Hloop as (i & q & a & sfx & Hi & _ & [rest Hpre] & ->).
        eexists _, _, _. split; [done|]. split; [done|]. simpl.
        apply Forall_app. split.
        * apply batch_stmts_allowed. simpl. intros x Hx.
          apply list_elem_of_fmap in Hx as (y & -> & Hy).
          apply list_elem_of_fmap. exists y. split; [done|].
          by apply (subseteq_take i b).
        * assert (Forall (λ st,
                    st_conn st = c ∧ st_plain st = plain_query (eng_class en)
                    ∧ (st_text st ∈ b.*1
                       ∨ (st_text st = "SHOW META"
                          ∧ default false (WITH_META (config self)) = true)
                       ∨ (st_text st = "SHOW STATUS"
                          ∧ default false (WITH_STATUS (config self)) = true)))
                    (sfx ++ rest)) as Hfa.
          { rewrite <- Hpre. apply pair_stmts_allowed.
            apply list_elem_of_fmap. exists (q, a). split; [done|].
            by apply list_elem_of_lookup_2 in Hi. }
          by apply Forall_app in Hfa as [? _]. }
  rewrite Htry in Hexec. exists new. rewrite <- Hs. split; [|done].
  destruct r2; injection Hexec as _ <-; by simpl.
Qed.

Lemma execute_sends_only_callers_queries_witness :
  let self := sample_connector OurSqlEngine
                (sample_config "oursql" None (Some true) None) in
  let q := Batch [("SELECT 1", "a"); ("SELECT broken", "b"); ("SELECT 2", "c")] in
  let x := execute sample_driver self 0 q new_state in
  ∃ new,
    sent x.2 = sent new_state ++ new
    ∧ Forall (λ st,
        st_conn st = 9 ∧ st_plain st = true
        ∧ (st_text st ∈ query_texts q
           ∨ (st_text st = "SHOW META"
              ∧ default false (WITH_META (config self)) = true)
           ∨ (st_text st = "SHOW STATUS"
              ∧ default false (WITH_STATUS (config self)) = true))) new.
Proof.
  intros self q x.
  apply (execute_sends_only_callers_queries sample_driver self
           (Engine OurSqlEngine sample_options) 0 q new_state 9
           (get_connection_enter self 0 new_state).2 x.1 x.2).
  - reflexivity.
  - vm_compute. reflexivity.
  - apply surjective_pairing.
Defined.

(** ** Rows without the expected columns *)

Lemma key_value_pairs_raise k v rows e :
  key_value_pairs k v rows = Raise e →
  ∃ (x : row) col, x ∈ rows ∧ (col = k ∨ col = v) ∧ x !! col = None
                   ∧ e = PyExc "KeyError" [PStr col].
Proof.
  induction rows as [|x rows IH]; simpl; [done|]. unfold getitem.
  destruct (x !! k) as [a|] eqn:Ha.
  - destruct (x !! v) as [b|] eqn:Hb.
    + destruct (key_value_pairs k v rows) as [l|e1]; [done|].
      intros [= <-]. destruct (IH eq_refl) as (y & col & Hy & Hcol & Hnone & ->).
      exists y, col. split; [by apply list_elem_of_further|done].
    + intros [= <-]. exists x, v. split; [apply list_elem_of_here|]. by split; [right|].
  - intros [= <-]. exists x, k. split; [apply list_elem_of_here|]. by split; [left|].
Qed.

(** The normalization of [SHOW META] and [SHOW STATUS] rows succeeds
    exactly when every row has the two columns; otherwise it raises the
    [KeyError] of a column that some row lacks. *)
Theorem normalize_key_error k v rows :
  (Forall (λ x : row, is_Some (x !! k) ∧ is_Some (x !! v)) rows
   ↔ ∃ d, normalize k v rows = Return d)
  ∧ (∀ e, normalize k v rows = Raise e →
       ∃ (x : row) col, x ∈ rows ∧ (col = k ∨ col = v) ∧ x !! col = None
                        ∧ e = PyExc "KeyError" [PStr col]).
Proof.
  split; [split|].
  - intros Hall. destruct (normalize_spec k v rows Hall) as (d & Hd & _). by exists d.
  - intros [d Hd]. unfold normalize in Hd.
    destruct (key_value_pairs k v rows) as [l|] eqn:Hl; [|done].
    apply key_value_pairs_return in Hl. clear Hd.
    induction Hl as [|x [a b] rows l [Ha Hb] _ IH]; constructor; [|done].
    simpl in *. by rewrite Ha, Hb.
  - intros e. unfold normalize.
    destruct (key_value_pairs k v rows) as [l|e1] eqn:Hl; [done|].
    intros [= <-]. by apply key_value_pairs_raise.
Qed.

Lemma normalize_key_error_witness :
  let rows : list row := [{[ "Variable_name" := PStr "total" ]}] in
  ∃ (x : row) col, x ∈ rows ∧ (col = "Variable_name" ∨ col = "Value")
                   ∧ x !! col = None
                   ∧ PyExc "KeyError" [PStr "Value"] = PyExc "KeyError" [PStr col].
Proof.
  intros rows.
  destruct (normalize_key_error "Variable_name" "Value" rows) as [_ Hraise].
  apply Hraise. vm_compute. reflexivity.
Defined.
